(** * Loss functions of [machine_learning/loss_functions.py]

    A shallow embedding of the eleven loss functions of the module, written
    once over an abstract numeric interface and instantiated twice:

    - at IEEE-754 binary64 (Rocq's primitive floats), which is what NumPy
      computes with, and where rounding, overflow, NaN and the empty mean
      live;
    - at the real numbers, where the formulas of the docstrings are read as
      mathematics: exact arithmetic, without rounding, overflow or NaN.

    What the code computes is stated for every numeric interface, or in
    binary64; the real instance says what those formulas are in exact
    arithmetic.

    A Python exception is an explicit [Raise] result.  One-dimensional arrays
    are lists, two- and three-dimensional arrays are nested lists that carry
    their shape.  The sum behind [np.sum] and [np.mean] is an operation of
    the numeric interface: the exact sum over the reals, and in binary64 the
    order of NumPy's pairwise summation (from left to right up to seven
    elements, in eight interleaved partial sums from eight elements on).
    The statements made for every numeric interface hold whatever the
    order of the additions is. *)

From Stdlib Require Import String ZArith Bool List Lia.
From Stdlib Require Import Reals Lra.
From Stdlib Require Import Floats.
Import ListNotations.

Set Implicit Arguments.

(** ** Exceptions and results *)

(** The two Python exceptions a call can end in.  [ValueError] is the
    module's only deliberate error (the specification's InvalidInput);
    [IndexError index size] is what NumPy raises when [index] is out of
    bounds for an axis of length [size]. *)
Inductive exn : Type :=
| ValueError (msg : string)
| IndexError (index : Z) (size : nat).

Inductive result (A : Type) : Type :=
| Ok (value : A)
| Raise (e : exn).

Arguments Ok {A} value.
Arguments Raise {A} e.

Definition is_invalid_input {A : Type} (r : result A) : Prop :=
  match r with
  | Raise (ValueError _) => True
  | _ => False
  end.

Definition bind_result {A B : Type} (r : result A) (k : A -> result B) : result B :=
  match r with
  | Ok a => k a
  | Raise e => Raise e
  end.

(** ** The numeric interface *)

(** The element type of a floating array with the operations NumPy applies
    to it.  [of_int] is the conversion of a Python int (a literal such as
    [1], a label, an element count) to the element type.  [nsum] is the
    reduction [np.add.reduce] of a one-dimensional array; in which order it
    adds is NumPy's business, so it is an operation of its own and not a
    fold of [nadd]. *)
Class Numeric (F : Type) : Type := {
  of_int : Z -> F;
  nadd : F -> F -> F;
  nsum : list F -> F;
  nsub : F -> F -> F;
  nmul : F -> F -> F;
  ndiv : F -> F -> F;
  nneg : F -> F;
  nabs : F -> F;
  nsqrt : F -> F;
  nmaximum : F -> F -> F;
  nminimum : F -> F -> F;
  num_eqb : F -> F -> bool;
  num_leb : F -> F -> bool
}.

(** The functions NumPy takes from the C math library. *)
Class Libm (F : Type) : Type := {
  nlog : F -> F;
  nlog1p : F -> F;
  nexp : F -> F;
  npow : F -> F -> F
}.

Declare Scope num_scope.
Delimit Scope num_scope with num.
Notation "x + y" := (nadd x y) : num_scope.
Notation "x - y" := (nsub x y) : num_scope.
Notation "x * y" := (nmul x y) : num_scope.
Notation "x / y" := (ndiv x y) : num_scope.
Notation "- x" := (nneg x) : num_scope.
Notation "x == y" := (num_eqb x y) (at level 70, no associativity) : num_scope.
Notation "x != y" := (negb (num_eqb x y)) (at level 70, no associativity) : num_scope.
Notation "x <=? y" := (num_leb x y) (at level 70, no associativity) : num_scope.

(** ** Arrays *)

Fixpoint zip_with {A B C : Type} (f : A -> B -> C) (xs : list A) (ys : list B) : list C :=
  match xs, ys with
  | x :: xs', y :: ys' => f x y :: zip_with f xs' ys'
  | _, _ => []
  end.

(** A two-dimensional array: [shape2] is [ndarray.shape], [rows2] the rows. *)
Record array2 (A : Type) : Type := Array2 {
  shape2 : nat * nat;
  rows2 : list (list A)
}.

(** A three-dimensional array, indexed (batch, position, component). *)
Record array3 (A : Type) : Type := Array3 {
  shape3 : nat * nat * nat;
  planes3 : list (list (list A))
}.

(** [np.array] on a rectangular nested list. *)
Definition np_array2 {A : Type} (rows : list (list A)) : array2 A :=
  Array2 (length rows, length (hd [] rows)) rows.

Definition np_array3 {A : Type} (planes : list (list (list A))) : array3 A :=
  Array3 (length planes, length (hd [] planes), length (hd [] (hd [] planes))) planes.

Definition wf_array3 {A : Type} (a : array3 A) : bool :=
  Nat.eqb (length (planes3 a)) (fst (fst (shape3 a)))
  && forallb (fun p =>
       Nat.eqb (length p) (snd (fst (shape3 a)))
       && forallb (fun r => Nat.eqb (length r) (snd (shape3 a))) p) (planes3 a).

Definition shape2_eqb (s t : nat * nat) : bool :=
  Nat.eqb (fst s) (fst t) && Nat.eqb (snd s) (snd t).

Section Ufuncs.
Context {F : Type} {N : Numeric F} {L : Libm F}.
Local Open Scope num_scope.

Definition zero : F := of_int 0.
Definition one : F := of_int 1.
(** The literal [0.5]: one half is exact in binary64. *)
Definition half : F := of_int 1 / of_int 2.

(** [np.sum] of a one-dimensional array. *)
Definition np_sum (a : list F) : F := nsum a.

(** [np.mean] of a one-dimensional array: the sum over the element count.
    On the empty array this is [0 / 0] (NumPy warns and returns NaN). *)
Definition np_mean (a : list F) : F :=
  np_sum a / of_int (Z.of_nat (length a)).

(** [np.clip(a, lo, hi)] is [minimum(maximum(a, lo), hi)] elementwise. *)
Definition clip (lo hi x : F) : F := nminimum (nmaximum x lo) hi.
Definition np_clip (a : list F) (lo hi : F) : list F := map (clip lo hi) a.

(** [np.where(cond, x, y)] on three arrays of one length. *)
Fixpoint np_where (cond : list bool) (xs ys : list F) : list F :=
  match cond, xs, ys with
  | c :: cond', x :: xs', y :: ys' => (if c then x else y) :: np_where cond' xs' ys'
  | _, _, _ => []
  end.

(** [np.isclose(a, b, rtol, atol)]: [|a - b| <= atol + rtol * |b|]. *)
Definition np_isclose (a b rtol atol : F) : bool :=
  nabs (a - b) <=? atol + rtol * nabs b.

(** [x ** 2] on an array is NumPy's [square]. *)
Definition square (x : F) : F := x * x.

End Ufuncs.

(** ** The loss functions *)

Section Losses.
Context {F : Type} {N : Numeric F} {L : Libm F}.
Local Open Scope num_scope.

(** *** Functions of two one-dimensional arrays *)

(** [binary_cross_entropy], lines 34-39: the length check, then the mean of
    [-(y * ln p + (1 - y) * ln (1 - p))] over the clipped predictions. *)
Definition binary_cross_entropy (y_true y_pred : list F) (epsilon : F) : result F :=
  if negb (Nat.eqb (length y_true) (length y_pred)) then
    Raise (ValueError "Input arrays must have the same length.")
  else
    let y_pred := np_clip y_pred epsilon (one - epsilon) in
    let bce_loss :=
      map nneg
        (zip_with nadd
           (zip_with nmul y_true (map nlog y_pred))
           (zip_with nmul (map (fun y => one - y) y_true)
                          (map nlog (map (fun p => one - p) y_pred)))) in
    Ok (np_mean bce_loss).

(** [binary_focal_cross_entropy], lines 80-90.  [** gamma] is the power
    function of the math library. *)
Definition binary_focal_cross_entropy
    (y_true y_pred : list F) (gamma alpha epsilon : F) : result F :=
  if negb (Nat.eqb (length y_true) (length y_pred)) then
    Raise (ValueError "Input arrays must have the same length.")
  else
    let y_pred := np_clip y_pred epsilon (one - epsilon) in
    let bcfe_loss :=
      map nneg
        (zip_with nadd
           (zip_with nmul
              (zip_with nmul
                 (map (fun p => alpha * npow (one - p) gamma) y_pred)
                 y_true)
              (map nlog y_pred))
           (zip_with nmul
              (zip_with nmul
                 (map (fun p => (one - alpha) * npow p gamma) y_pred)
                 (map (fun y => one - y) y_true))
              (map nlog (map (fun p => one - p) y_pred)))) in
    Ok (np_mean bcfe_loss).

(** [hinge_loss], lines 181-188. *)
Definition hinge_loss (y_true y_pred : list F) : result F :=
  if negb (Nat.eqb (length y_true) (length y_pred)) then
    Raise (ValueError "Length of predicted and actual array must be same.")
  else if existsb (fun y => (y != of_int (-1)) && (y != one)) y_true then
    Raise (ValueError "y_true can have values -1 or 1 only.")
  else
    let hinge_losses :=
      map (fun x => nmaximum zero (one - x)) (zip_with nmul y_true y_pred) in
    Ok (np_mean hinge_losses).

(** [huber_loss], lines 223-228: both branches are computed for every
    element and [np.where] picks one by [|e| <= delta]. *)
Definition huber_loss (y_true y_pred : list F) (delta : F) : result F :=
  if negb (Nat.eqb (length y_true) (length y_pred)) then
    Raise (ValueError "Input arrays must have the same length.")
  else
    let huber_mse := map (fun e => half * square e) (zip_with nsub y_true y_pred) in
    let huber_mae :=
      map (fun e => delta * (nabs e - half * delta)) (zip_with nsub y_true y_pred) in
    Ok (np_mean
          (np_where (map (fun e => nabs e <=? delta) (zip_with nsub y_true y_pred))
                    huber_mse huber_mae)).

(** [mean_squared_error], lines 257-261. *)
Definition mean_squared_error (y_true y_pred : list F) : result F :=
  if negb (Nat.eqb (length y_true) (length y_pred)) then
    Raise (ValueError "Input arrays must have the same length.")
  else
    let squared_errors := map square (zip_with nsub y_true y_pred) in
    Ok (np_mean squared_errors).

(** [mean_absolute_error], lines 295-298. *)
Definition mean_absolute_error (y_true y_pred : list F) : result F :=
  if negb (Nat.eqb (length y_true) (length y_pred)) then
    Raise (ValueError "Input arrays must have the same length.")
  else
    Ok (np_mean (map nabs (zip_with nsub y_true y_pred))).

(** [mean_squared_logarithmic_error], lines 330-334. *)
Definition mean_squared_logarithmic_error (y_true y_pred : list F) : result F :=
  if negb (Nat.eqb (length y_true) (length y_pred)) then
    Raise (ValueError "Input arrays must have the same length.")
  else
    let squared_logarithmic_errors :=
      map square (zip_with nsub (map nlog1p y_true) (map nlog1p y_pred)) in
    Ok (np_mean squared_logarithmic_errors).

(** [mean_absolute_percentage_error], lines 373-379: a zero of [y_true] is
    replaced by [epsilon] before dividing. *)
Definition mean_absolute_percentage_error
    (y_true y_pred : list F) (epsilon : F) : result F :=
  if negb (Nat.eqb (length y_true) (length y_pred)) then
    Raise (ValueError "The length of the two arrays should be the same.")
  else
    let y_true := map (fun y => if y == zero then epsilon else y) y_true in
    let absolute_percentage_diff :=
      map nabs (zip_with ndiv (zip_with nsub y_true y_pred) y_true) in
    Ok (np_mean absolute_percentage_diff).

(** *** [categorical_cross_entropy] *)

(** Lines 138-148: the shape check, the one-hot check on [y_true], the
    normalisation check on the row sums of [y_pred], then the loss. *)
Definition categorical_cross_entropy (y_true y_pred : array2 F) (epsilon : F) : result F :=
  if negb (shape2_eqb (shape2 y_true) (shape2 y_pred)) then
    Raise (ValueError "Input arrays must have the same shape.")
  else if existsb (existsb (fun y => (y != zero) && (y != one))) (rows2 y_true)
          || existsb (fun s => s != one) (map np_sum (rows2 y_true)) then
    Raise (ValueError "y_true must be one-hot encoded.")
  else if negb (forallb (fun s => np_isclose s one epsilon epsilon)
                        (map np_sum (rows2 y_pred))) then
    Raise (ValueError "Predicted probabilities must sum to approximately 1.")
  else
    let y_pred := map (fun r => np_clip r epsilon one) (rows2 y_pred) in
    Ok (- np_sum (concat (zip_with (zip_with nmul) (rows2 y_true) (map (map nlog) y_pred)))).

(** *** [perplexity_loss] *)

(** [np.max] of an integer array; NumPy raises on an array with no element. *)
Definition np_max (a : list Z) : option Z :=
  match a with
  | [] => None
  | x :: rest => Some (fold_left Z.max rest x)
  end.

(** Row [k] of [np.eye(n)]. *)
Definition eye_row (n k : nat) : list F :=
  map (fun j => if Nat.eqb j k then one else zero) (seq 0 n).

(** [np.eye(n)[word]]: an index from [-n] to [n - 1] selects a row (a
    negative one counts from the end), any other raises [IndexError]. *)
Definition eye_index (n : nat) (word : Z) : result (list F) :=
  if (0 <=? word)%Z && (word <? Z.of_nat n)%Z then
    Ok (eye_row n (Z.to_nat word))
  else if (- Z.of_nat n <=? word)%Z && (word <? 0)%Z then
    Ok (eye_row n (Z.to_nat (word + Z.of_nat n)))
  else
    Raise (IndexError word n).

(** A list comprehension whose body may raise: the first exception, in
    iteration order, ends it. *)
Fixpoint map_result {A B : Type} (f : A -> result B) (l : list A) : result (list B) :=
  match l with
  | [] => Ok []
  | x :: rest =>
      bind_result (f x) (fun y =>
      bind_result (map_result f rest) (fun ys => Ok (y :: ys)))
  end.

(** Lines 451-471.  [filter_matrix] is built by a comprehension that indexes
    [np.eye(vocab_size)] with every label in turn. *)
Definition perplexity_loss (y_true : array2 Z) (y_pred : array3 F) (epsilon : F) : result F :=
  let vocab_size := snd (shape3 y_pred) in
  if negb (Nat.eqb (fst (shape2 y_true)) (fst (fst (shape3 y_pred)))) then
    Raise (ValueError "Batch size of y_true and y_pred must be equal.")
  else if negb (Nat.eqb (snd (shape2 y_true)) (snd (fst (shape3 y_pred)))) then
    Raise (ValueError "Sentence length of y_true and y_pred must be equal.")
  else
    match np_max (concat (rows2 y_true)) with
    | None =>
        Raise (ValueError "zero-size array to reduction operation maximum which has no identity")
    | Some largest =>
        if (Z.of_nat vocab_size <? largest)%Z then
          Raise (ValueError "Label value must not be greater than vocabulary size.")
        else
          bind_result
            (map_result (map_result (eye_index vocab_size)) (rows2 y_true))
            (fun filter_matrix =>
               let true_class_pred :=
                 map (map (fun r => clip epsilon one (np_sum r)))
                     (zip_with (zip_with (zip_with nmul)) (planes3 y_pred) filter_matrix) in
               let perp_losses :=
                 map (fun s => nexp (- np_mean (map nlog s))) true_class_pred in
               Ok (np_mean perp_losses))
    end.

(** *** [contrastive_loss] *)

(** [np.subtract.reduce] along the pair axis: the first vector minus the
    following ones, componentwise. *)
Definition subtract_reduce (vectors : list (list F)) : list F :=
  match vectors with
  | [] => []
  | v :: rest => fold_left (zip_with nsub) rest v
  end.

(** [np.linalg.norm] of a vector: the square root of the sum of squares. *)
Definition norm (v : list F) : F := nsqrt (np_sum (map square v)).

(** Indexing with a boolean mask keeps the elements whose flag is set. *)
Fixpoint select {A : Type} (mask : list bool) (xs : list A) : list A :=
  match mask, xs with
  | b :: mask', x :: xs' => if b then x :: select mask' xs' else select mask' xs'
  | _, _ => []
  end.

(** Lines 538-550.  [target.astype(bool)] is true where the target is not
    0; the two sums select with that mask and with its negation. *)
Definition contrastive_loss (inputs : array3 F) (target : list Z) (m : F) : result F :=
  if negb (Nat.eqb (fst (fst (shape3 inputs))) (length target)) then
    Raise (ValueError "batch size of inputs and target parameter must be equal.")
  else if negb (Nat.eqb (snd (fst (shape3 inputs))) 2) then
    Raise (ValueError "inputs shape must be equal to (batch_size, 2, n)")
  else if existsb (fun t => negb (t =? 1)%Z && negb (t =? 0)%Z) target then
    Raise (ValueError "target values must be either 0 or 1.")
  else
    let euclidean_dist := map (fun pair => norm (subtract_reduce pair)) (planes3 inputs) in
    let dissimilar := map (fun t => negb (t =? 0)%Z) target in
    let error_similar := np_sum (select (map negb dissimilar) euclidean_dist) in
    let error_dissimilar :=
      np_sum (map (fun d => nmaximum zero (m - d)) (select dissimilar euclidean_dist)) in
    Ok (error_similar + error_dissimilar).

End Losses.

(** ** The two instances *)

(** *** Real numbers *)

(** Exact arithmetic, an idealisation of what NumPy computes.  Division and
    the logarithm are total in Rocq's reals ([x / 0 = 0], [ln x = 0] for
    [x <= 0]), where binary64 gives an infinity or a NaN. *)
#[export] Instance R_numeric : Numeric R := {|
  of_int := IZR;
  nadd := Rplus;
  nsum := fun a => fold_left Rplus a 0%R;
  nsub := Rminus;
  nmul := Rmult;
  ndiv := Rdiv;
  nneg := Ropp;
  nabs := Rabs;
  nsqrt := R_sqrt.sqrt;
  nmaximum := Rmax;
  nminimum := Rmin;
  num_eqb := fun x y => if Req_dec_T x y then true else false;
  num_leb := fun x y => if Rle_dec x y then true else false
|}.

#[export] Instance R_libm : Libm R := {|
  nlog := ln;
  nlog1p := fun x => ln (1 + x);
  nexp := exp;
  npow := Rpower
|}.

(** *** IEEE-754 binary64 *)

(** [np.maximum] and [np.minimum] hand a NaN on from either argument. *)
Definition float_maximum (a b : float) : float :=
  if PrimFloat.is_nan a || PrimFloat.leb b a then a else b.

Definition float_minimum (a b : float) : float :=
  if PrimFloat.is_nan a || PrimFloat.leb a b then a else b.

(** A Python int as a double: the nearest one, ties to even. *)
Definition float_of_int (z : Z) : float :=
  SF2Prim (binary_normalize prec emax z 0 false).

(** The order in which [np.add.reduce] adds the doubles of a contiguous
    array (NumPy's pairwise summation).  Fewer than eight elements are added
    from left to right.  Up to 128 elements are added in eight interleaved
    partial sums [r[0]], ..., [r[7]], which are combined as
    [((r0 + r1) + (r2 + r3)) + ((r4 + r5) + (r6 + r7))] before the elements
    left over are added one by one.  A longer array is split in two, the
    first part a multiple of eight long, and the two sums are added. *)
Fixpoint accumulate8 (fuel : nat) (r rest : list float) : list float * list float :=
  match fuel with
  | O => (r, rest)
  | S fuel' =>
      if Nat.leb 8 (length rest)
      then accumulate8 fuel' (zip_with PrimFloat.add r (firstn 8 rest)) (skipn 8 rest)
      else (r, rest)
  end.

Definition block_sum (a : list float) : float :=
  let (r, rest) := accumulate8 (length a) (firstn 8 a) (skipn 8 a) in
  match r with
  | [r0; r1; r2; r3; r4; r5; r6; r7] =>
      fold_left PrimFloat.add rest (((r0 + r1) + (r2 + r3)) + ((r4 + r5) + (r6 + r7)))%float
  | _ => fold_left PrimFloat.add (r ++ rest) 0%float
  end.

Fixpoint pairwise_sum (fuel : nat) (a : list float) : float :=
  if Nat.ltb (length a) 8 then fold_left PrimFloat.add a 0%float
  else if Nat.leb (length a) 128 then block_sum a
  else
    match fuel with
    | O => block_sum a
    | S fuel' =>
        let n2 := (length a / 2 - (length a / 2) mod 8)%nat in
        (pairwise_sum fuel' (firstn n2 a) + pairwise_sum fuel' (skipn n2 a))%float
    end.

(** The reduction starts from the identity of the addition, 0. *)
Definition float_sum (a : list float) : float :=
  (0 + pairwise_sum (length a) a)%float.

#[export] Instance float_numeric : Numeric float := {|
  of_int := float_of_int;
  nadd := PrimFloat.add;
  nsum := float_sum;
  nsub := PrimFloat.sub;
  nmul := PrimFloat.mul;
  ndiv := PrimFloat.div;
  nneg := PrimFloat.opp;
  nabs := PrimFloat.abs;
  nsqrt := PrimFloat.sqrt;
  nmaximum := float_maximum;
  nminimum := float_minimum;
  num_eqb := PrimFloat.eqb;
  num_leb := PrimFloat.leb
|}.

(** What a positive integer converts to: a positive finite double, or
    [+infinity] past the largest one. *)
Definition finite_or_infinite (x : spec_float) : Prop :=
  x = S754_infinity false
  \/ exists m e, x = S754_finite false m e /\ valid_binary x = true.

(** ** The docstring formulas over the reals *)

(** These definitions follow the wording of the documentation, not the
    code; the theorems below compare the two. *)

Definition real_sum (l : list R) : R := fold_right Rplus 0%R l.

Definition real_mean (l : list R) : R := (real_sum l / INR (length l))%R.

(** Huber loss = [0.5 * (y_true - y_pred)^2] if [|y_true - y_pred| <= delta],
    [delta * |y_true - y_pred| - 0.5 * delta^2] otherwise. *)
Definition huber_term (delta y p : R) : R :=
  if Rle_dec (Rabs (y - p)) delta
  then (0.5 * (y - p) ^ 2)%R
  else (delta * Rabs (y - p) - 0.5 * delta ^ 2)%R.

Definition huber_spec (y_true y_pred : list R) (delta : R) : R :=
  real_mean (zip_with (huber_term delta) y_true y_pred).

(** The Euclidean distance between the two vectors of a pair. *)
Definition euclidean_distance (u v : list R) : R :=
  R_sqrt.sqrt (real_sum (zip_with (fun a b => ((a - b) ^ 2)%R) u v)).

Definition pair_distance (pair : list (list R)) : R :=
  match pair with
  | [u; v] => euclidean_distance u v
  | _ => 0%R
  end.

(** The sum of [d] over the pairs with target 0 plus the sum of
    [max(0, m - d)] over the pairs with target 1. *)
Definition contrastive_spec (pairs : list (list (list R))) (target : list Z) (m : R) : R :=
  (real_sum (map (fun pt => pair_distance (fst pt))
                 (filter (fun pt => (snd pt =? 0)%Z) (combine pairs target)))
   + real_sum (map (fun pt => Rmax 0 (m - pair_distance (fst pt)))
                   (filter (fun pt => (snd pt =? 1)%Z) (combine pairs target))))%R.

(** ** Arrays as objects in memory *)

(** The functions above take arrays by value.  To speak about mutation the
    same functions are written a second time over a heap of array objects:
    a parameter is a reference, the array an assignment builds is allocated
    as a new object, and the assignment binds the local name to the new
    reference ([y_pred = np.clip(y_pred, ...)] rebinds [y_pred], it does not
    write into the caller's array).  The temporaries inside one expression
    are not kept.  [put] is writing in place, what an [out=] argument or an
    item assignment would do. *)

Section Memory.
Context {F : Type} {N : Numeric F} {L : Libm F}.
Local Open Scope num_scope.

Inductive ndarray : Type :=
| Floats1 (a : list F)
| Floats2 (a : array2 F)
| Floats3 (a : array3 F)
| Ints1 (a : list Z)
| Ints2 (a : array2 Z).

Definition ref : Type := nat.
Definition heap : Type := list ndarray.
Definition M (A : Type) : Type := heap -> A * heap.

Definition ret {A : Type} (x : A) : M A := fun h => (x, h).

Definition bind {A B : Type} (m : M A) (k : A -> M B) : M B :=
  fun h => let (x, h') := m h in k x h'.

Definition new (o : ndarray) : M ref := fun h => (length h, h ++ [o]).

Fixpoint update (h : heap) (r : ref) (o : ndarray) : heap :=
  match h, r with
  | [], _ => []
  | _ :: rest, O => o :: rest
  | x :: rest, S r' => x :: update rest r' o
  end.

Definition put (r : ref) (o : ndarray) : M unit := fun h => (tt, update h r o).

Definition floats1 (r : ref) : M (list F) :=
  fun h => (match nth_error h r with Some (Floats1 a) => a | _ => [] end, h).

Definition floats2 (r : ref) : M (array2 F) :=
  fun h => (match nth_error h r with Some (Floats2 a) => a | _ => Array2 (0, 0) [] end, h).

Definition floats3 (r : ref) : M (array3 F) :=
  fun h => (match nth_error h r with Some (Floats3 a) => a | _ => Array3 (0, 0, 0) [] end, h).

Definition ints1 (r : ref) : M (list Z) :=
  fun h => (match nth_error h r with Some (Ints1 a) => a | _ => [] end, h).

Definition ints2 (r : ref) : M (array2 Z) :=
  fun h => (match nth_error h r with Some (Ints2 a) => a | _ => Array2 (0, 0) [] end, h).

(** A computation that leaves every object of the heap it starts from as it
    was: the heap it ends in is the initial one followed by new objects. *)
Definition allocates_only {A : Type} (m : M A) : Prop :=
  forall h, exists fresh, snd (m h) = h ++ fresh.

(** Every object of [h] is still there, with the same contents, in [h']. *)
Definition unchanged (h h' : heap) : Prop :=
  forall (r : ref) (o : ndarray), nth_error h r = Some o -> nth_error h' r = Some o.

End Memory.

Notation "x <- m ;; k" := (bind m (fun x => k))
  (at level 61, m at next level, right associativity).

Section MemoryLosses.
Context {F : Type} {N : Numeric F} {L : Libm F}.
Local Open Scope num_scope.

Definition binary_cross_entropy_st (y_true y_pred : ref) (epsilon : F) : M (result F) :=
  t <- floats1 y_true ;;
  p <- floats1 y_pred ;;
  if negb (Nat.eqb (length t) (length p)) then
    ret (Raise (ValueError "Input arrays must have the same length."))
  else
    y_pred <- new (Floats1 (np_clip p epsilon (one - epsilon))) ;;
    p <- floats1 y_pred ;;
    bce_loss <- new (Floats1
      (map nneg
        (zip_with nadd
           (zip_with nmul t (map nlog p))
           (zip_with nmul (map (fun y => one - y) t)
                          (map nlog (map (fun q => one - q) p)))))) ;;
    l <- floats1 bce_loss ;;
    ret (Ok (np_mean l)).

Definition binary_focal_cross_entropy_st
    (y_true y_pred : ref) (gamma alpha epsilon : F) : M (result F) :=
  t <- floats1 y_true ;;
  p <- floats1 y_pred ;;
  if negb (Nat.eqb (length t) (length p)) then
    ret (Raise (ValueError "Input arrays must have the same length."))
  else
    y_pred <- new (Floats1 (np_clip p epsilon (one - epsilon))) ;;
    p <- floats1 y_pred ;;
    bcfe_loss <- new (Floats1
      (map nneg
        (zip_with nadd
           (zip_with nmul
              (zip_with nmul (map (fun q => alpha * npow (one - q) gamma) p) t)
              (map nlog p))
           (zip_with nmul
              (zip_with nmul (map (fun q => (one - alpha) * npow q gamma) p)
                             (map (fun y => one - y) t))
              (map nlog (map (fun q => one - q) p)))))) ;;
    l <- floats1 bcfe_loss ;;
    ret (Ok (np_mean l)).

Definition categorical_cross_entropy_st (y_true y_pred : ref) (epsilon : F) : M (result F) :=
  t <- floats2 y_true ;;
  p <- floats2 y_pred ;;
  if negb (shape2_eqb (shape2 t) (shape2 p)) then
    ret (Raise (ValueError "Input arrays must have the same shape."))
  else if existsb (existsb (fun y => (y != zero) && (y != one))) (rows2 t)
          || existsb (fun s => s != one) (map np_sum (rows2 t)) then
    ret (Raise (ValueError "y_true must be one-hot encoded."))
  else if negb (forallb (fun s => np_isclose s one epsilon epsilon)
                        (map np_sum (rows2 p))) then
    ret (Raise (ValueError "Predicted probabilities must sum to approximately 1."))
  else
    y_pred <- new (Floats2 (Array2 (shape2 p) (map (fun r => np_clip r epsilon one) (rows2 p)))) ;;
    p <- floats2 y_pred ;;
    ret (Ok (- np_sum (concat (zip_with (zip_with nmul) (rows2 t) (map (map nlog) (rows2 p)))))).

Definition hinge_loss_st (y_true y_pred : ref) : M (result F) :=
  t <- floats1 y_true ;;
  p <- floats1 y_pred ;;
  if negb (Nat.eqb (length t) (length p)) then
    ret (Raise (ValueError "Length of predicted and actual array must be same."))
  else if existsb (fun y => (y != of_int (-1)) && (y != one)) t then
    ret (Raise (ValueError "y_true can have values -1 or 1 only."))
  else
    hinge_losses <- new (Floats1
      (map (fun x => nmaximum zero (one - x)) (zip_with nmul t p))) ;;
    l <- floats1 hinge_losses ;;
    ret (Ok (np_mean l)).

Definition huber_loss_st (y_true y_pred : ref) (delta : F) : M (result F) :=
  t <- floats1 y_true ;;
  p <- floats1 y_pred ;;
  if negb (Nat.eqb (length t) (length p)) then
    ret (Raise (ValueError "Input arrays must have the same length."))
  else
    huber_mse <- new (Floats1 (map (fun e => half * square e) (zip_with nsub t p))) ;;
    huber_mae <- new (Floats1
      (map (fun e => delta * (nabs e - half * delta)) (zip_with nsub t p))) ;;
    mse <- floats1 huber_mse ;;
    mae <- floats1 huber_mae ;;
    ret (Ok (np_mean
               (np_where (map (fun e => nabs e <=? delta) (zip_with nsub t p)) mse mae))).

Definition mean_squared_error_st (y_true y_pred : ref) : M (result F) :=
  t <- floats1 y_true ;;
  p <- floats1 y_pred ;;
  if negb (Nat.eqb (length t) (length p)) then
    ret (Raise (ValueError "Input arrays must have the same length."))
  else
    squared_errors <- new (Floats1 (map square (zip_with nsub t p))) ;;
    l <- floats1 squared_errors ;;
    ret (Ok (np_mean l)).

Definition mean_absolute_error_st (y_true y_pred : ref) : M (result F) :=
  t <- floats1 y_true ;;
  p <- floats1 y_pred ;;
  if negb (Nat.eqb (length t) (length p)) then
    ret (Raise (ValueError "Input arrays must have the same length."))
  else
    ret (Ok (np_mean (map nabs (zip_with nsub t p)))).

Definition mean_squared_logarithmic_error_st (y_true y_pred : ref) : M (result F) :=
  t <- floats1 y_true ;;
  p <- floats1 y_pred ;;
  if negb (Nat.eqb (length t) (length p)) then
    ret (Raise (ValueError "Input arrays must have the same length."))
  else
    squared_logarithmic_errors <- new (Floats1
      (map square (zip_with nsub (map nlog1p t) (map nlog1p p)))) ;;
    l <- floats1 squared_logarithmic_errors ;;
    ret (Ok (np_mean l)).

Definition mean_absolute_percentage_error_st
    (y_true y_pred : ref) (epsilon : F) : M (result F) :=
  t <- floats1 y_true ;;
  p <- floats1 y_pred ;;
  if negb (Nat.eqb (length t) (length p)) then
    ret (Raise (ValueError "The length of the two arrays should be the same."))
  else
    y_true <- new (Floats1 (map (fun y => if y == zero then epsilon else y) t)) ;;
    t <- floats1 y_true ;;
    absolute_percentage_diff <- new (Floats1
      (map nabs (zip_with ndiv (zip_with nsub t p) t))) ;;
    l <- floats1 absolute_percentage_diff ;;
    ret (Ok (np_mean l)).

Definition perplexity_loss_st (y_true y_pred : ref) (epsilon : F) : M (result F) :=
  t <- ints2 y_true ;;
  p <- floats3 y_pred ;;
  let vocab_size := snd (shape3 p) in
  if negb (Nat.eqb (fst (shape2 t)) (fst (fst (shape3 p)))) then
    ret (Raise (ValueError "Batch size of y_true and y_pred must be equal."))
  else if negb (Nat.eqb (snd (shape2 t)) (snd (fst (shape3 p)))) then
    ret (Raise (ValueError "Sentence length of y_true and y_pred must be equal."))
  else
    match np_max (concat (rows2 t)) with
    | None =>
        ret (Raise (ValueError
          "zero-size array to reduction operation maximum which has no identity"))
    | Some largest =>
        if (Z.of_nat vocab_size <? largest)%Z then
          ret (Raise (ValueError "Label value must not be greater than vocabulary size."))
        else
          match map_result (map_result (eye_index vocab_size)) (rows2 t) with
          | Raise e => ret (Raise e)
          | Ok planes =>
              filter_matrix <- new (Floats3 (Array3 (shape3 p) planes)) ;;
              f <- floats3 filter_matrix ;;
              true_class_pred <- new (Floats2 (Array2 (shape2 t)
                (map (map (fun r => clip epsilon one (np_sum r)))
                     (zip_with (zip_with (zip_with nmul)) (planes3 p) (planes3 f))))) ;;
              c <- floats2 true_class_pred ;;
              perp_losses <- new (Floats1
                (map (fun s => nexp (- np_mean (map nlog s))) (rows2 c))) ;;
              l <- floats1 perp_losses ;;
              ret (Ok (np_mean l))
          end
    end.

Definition contrastive_loss_st (inputs target : ref) (m : F) : M (result F) :=
  x <- floats3 inputs ;;
  t <- ints1 target ;;
  if negb (Nat.eqb (fst (fst (shape3 x))) (length t)) then
    ret (Raise (ValueError "batch size of inputs and target parameter must be equal."))
  else if negb (Nat.eqb (snd (fst (shape3 x))) 2) then
    ret (Raise (ValueError "inputs shape must be equal to (batch_size, 2, n)"))
  else if existsb (fun t => negb (t =? 1)%Z && negb (t =? 0)%Z) t then
    ret (Raise (ValueError "target values must be either 0 or 1."))
  else
    euclidean_dist <- new (Floats1
      (map (fun pair => norm (subtract_reduce pair)) (planes3 x))) ;;
    d <- floats1 euclidean_dist ;;
    let dissimilar := map (fun t => negb (t =? 0)%Z) t in
    let error_similar := np_sum (select (map negb dissimilar) d) in
    let error_dissimilar :=
      np_sum (map (fun d => nmaximum zero (m - d)) (select dissimilar d)) in
    ret (Ok (error_similar + error_dissimilar)).

(** What clipping in place would be ([np.clip(y_pred, lo, hi, out=y_pred)]):
    the one operation the module never performs. *)
Definition clip_in_place (y_pred : ref) (lo hi : F) : M unit :=
  p <- floats1 y_pred ;;
  put y_pred (Floats1 (np_clip p lo hi)).

End MemoryLosses.

(** ** Further formulas and data *)

Definition wf_array2 {A : Type} (a : array2 A) : bool :=
  Nat.eqb (length (rows2 a)) (fst (shape2 a))
  && forallb (fun r => Nat.eqb (length r) (snd (shape2 a))) (rows2 a).

(** A label counted from the end of a vocabulary of [n] words, as Python's
    negative indices are: [-1] is the last word. *)
Definition wrap_label (n : nat) (word : Z) : Z := (word mod Z.of_nat n)%Z.

Definition wrap_labels (n : nat) (y_true : array2 Z) : array2 Z :=
  Array2 (shape2 y_true) (map (map (wrap_label n)) (rows2 y_true)).

(** The perplexity of one sentence: [exp] of minus the mean log-probability
    that the prediction gives to the true words, each probability clipped to
    [[epsilon, 1]]. *)
Definition sentence_perplexity (epsilon : R) (probs : list (list R)) (sentence : list Z) : R :=
  exp (- real_mean
           (zip_with (fun p word => ln (clip epsilon 1%R (nth (Z.to_nat word) p 0%R)))
                     probs sentence)).

(** Perplexity loss: the mean of the sentence perplexities over the batch. *)
Definition perplexity_spec (y_true : list (list Z)) (y_pred : list (list (list R)))
    (epsilon : R) : R :=
  real_mean (zip_with (sentence_perplexity epsilon) y_pred y_true).


(** The batch of the [perplexity_loss] docstring over the reals. *)
Definition perplexity_y_pred_real : array3 R :=
  np_array3
    [[[0.28; 0.19; 0.21; 0.15; 0.15]; [0.24; 0.19; 0.09; 0.18; 0.27]];
     [[0.03; 0.26; 0.21; 0.18; 0.30]; [0.28; 0.10; 0.33; 0.15; 0.12]]]%R.

(** ** Proof automation *)

Create HintDb alloc.
Create Rewrite HintDb heap_reads.

(** Bounds on the absolute value of a numeral expression. *)
Ltac abs_bound := unfold Rabs; destruct (Rcase_abs _); lra.

(** One step of a heap computation: unfold the monad, read back what was
    just allocated. *)
Ltac run :=
  cbv beta iota zeta delta [bind ret new floats1 floats2 floats3 ints1 ints2];
  cbn [fst]; autorewrite with heap_reads.

(** ** Example data *)

Set Warnings "-inexact-float".

(** The batch of the [perplexity_loss] docstring: two sentences of two
    words over a vocabulary of five. *)
Definition perplexity_y_pred : array3 float :=
  np_array3
    [[[0.28; 0.19; 0.21; 0.15; 0.15]; [0.24; 0.19; 0.09; 0.18; 0.27]];
     [[0.03; 0.26; 0.21; 0.18; 0.30]; [0.28; 0.10; 0.33; 0.15; 0.12]]]%float.

(** The two pairs of the [contrastive_loss] docstring, as decimal fractions. *)
Definition contrastive_inputs : array3 R :=
  np_array3
    [[[0.06796051; 0.86319405; 0.83875762; 0.4246106; 0.4142061];
      [0.1648123; 0.23396954; 0.26760326; 0.90300768; 0.82789254]];
     [[0.73989664; 0.929347; 0.37955765; 0.17692685; 0.09868801];
      [0.23727054; 0.41889803; 0.44162983; 0.9783071; 0.06199906]]]%R.

(** The same pairs as doubles. *)
Definition contrastive_inputs_float : array3 float :=
  np_array3
    [[[0.06796051; 0.86319405; 0.83875762; 0.4246106; 0.4142061];
      [0.1648123; 0.23396954; 0.26760326; 0.90300768; 0.82789254]];
     [[0.73989664; 0.929347; 0.37955765; 0.17692685; 0.09868801];
      [0.23727054; 0.41889803; 0.44162983; 0.9783071; 0.06199906]]]%float.

(** * Theorems *)

(** ** Lists and results *)

Lemma zip_with_length {A B C : Type} (f : A -> B -> C) (xs : list A) (ys : list B) :
  length (zip_with f xs ys) = Nat.min (length xs) (length ys).
Proof.
  revert ys; induction xs as [|x xs IH]; intros [|y ys]; simpl; auto.
Qed.

Lemma map_zip_with {A B C D : Type} (g : C -> D) (f : A -> B -> C)
    (xs : list A) (ys : list B) :
  map g (zip_with f xs ys) = zip_with (fun x y => g (f x y)) xs ys.
Proof.
  revert ys; induction xs as [|x xs IH]; intros [|y ys]; simpl; f_equal; auto.
Qed.

Lemma np_where_zip_with {F A B : Type} (c : A -> B -> bool) (f g : A -> B -> F)
    (xs : list A) (ys : list B) :
  np_where (zip_with c xs ys) (zip_with f xs ys) (zip_with g xs ys)
  = zip_with (fun x y => if c x y then f x y else g x y) xs ys.
Proof.
  revert ys; induction xs as [|x xs IH]; intros [|y ys]; simpl; f_equal; auto.
Qed.

Lemma zip_with_ext {A B C : Type} (f g : A -> B -> C) (xs : list A) (ys : list B) :
  (forall x y, f x y = g x y) -> zip_with f xs ys = zip_with g xs ys.
Proof.
  intros E; revert ys; induction xs as [|x xs IH]; intros [|y ys]; simpl; f_equal; auto.
Qed.

Lemma length_mismatch_eqb (n m : nat) : n <> m -> negb (Nat.eqb n m) = true.
Proof.
  intros H. apply negb_true_iff, Nat.eqb_neq, H.
Qed.

Lemma length_match_eqb (n m : nat) : n = m -> negb (Nat.eqb n m) = false.
Proof.
  intros ->. now rewrite Nat.eqb_refl.
Qed.

Lemma shape2_eqb_eq (s t : nat * nat) : shape2_eqb s t = true <-> s = t.
Proof.
  destruct s as [a b], t as [c d]; unfold shape2_eqb; simpl.
  rewrite andb_true_iff, !Nat.eqb_eq. split.
  - intros [-> ->]; reflexivity.
  - intros E; injection E; auto.
Qed.

Lemma shape2_mismatch_eqb (s t : nat * nat) : s <> t -> negb (shape2_eqb s t) = true.
Proof.
  intros H. apply negb_true_iff. destruct (shape2_eqb s t) eqn:E; auto.
  apply shape2_eqb_eq in E. contradiction.
Qed.

Lemma existsb_Exists {A : Type} (f : A -> bool) (l : list A) :
  existsb f l = true <-> Exists (fun x => f x = true) l.
Proof.
  rewrite existsb_exists, Exists_exists. reflexivity.
Qed.

Lemma forallb_Forall_iff {A : Type} (f : A -> bool) (l : list A) :
  forallb f l = true <-> Forall (fun x => f x = true) l.
Proof.
  rewrite forallb_forall, Forall_forall. reflexivity.
Qed.

(** ** Mismatched lengths and shapes *)

(** C2: each of the nine functions that require two arrays of equal length
    (or, for [categorical_cross_entropy], of equal shape) raises
    [ValueError] when the lengths (shapes) differ.  The statement holds for
    every numeric interface, so the outcome cannot depend on any arithmetic
    on the elements: none is evaluated before the check. *)
Theorem mismatched_inputs_raise :
  forall (F : Type) (N : Numeric F) (L : Libm F)
         (y_true y_pred : list F) (t p : array2 F) (epsilon gamma alpha delta : F),
    (length y_true <> length y_pred ->
       binary_cross_entropy y_true y_pred epsilon
         = Raise (ValueError "Input arrays must have the same length.")
       /\ binary_focal_cross_entropy y_true y_pred gamma alpha epsilon
         = Raise (ValueError "Input arrays must have the same length.")
       /\ hinge_loss y_true y_pred
         = Raise (ValueError "Length of predicted and actual array must be same.")
       /\ huber_loss y_true y_pred delta
         = Raise (ValueError "Input arrays must have the same length.")
       /\ mean_squared_error y_true y_pred
         = Raise (ValueError "Input arrays must have the same length.")
       /\ mean_absolute_error y_true y_pred
         = Raise (ValueError "Input arrays must have the same length.")
       /\ mean_squared_logarithmic_error y_true y_pred
         = Raise (ValueError "Input arrays must have the same length.")
       /\ mean_absolute_percentage_error y_true y_pred epsilon
         = Raise (ValueError "The length of the two arrays should be the same."))
    /\ (shape2 t <> shape2 p ->
       categorical_cross_entropy t p epsilon
         = Raise (ValueError "Input arrays must have the same shape.")).
Proof.
  intros F N L y_true y_pred t p epsilon gamma alpha delta. split.
  - intros H. apply length_mismatch_eqb in H.
    unfold binary_cross_entropy, binary_focal_cross_entropy, hinge_loss, huber_loss,
      mean_squared_error, mean_absolute_error, mean_squared_logarithmic_error,
      mean_absolute_percentage_error.
    rewrite H. repeat split.
  - intros H. apply shape2_mismatch_eqb in H.
    unfold categorical_cross_entropy. now rewrite H.
Qed.

Lemma mismatched_inputs_raise_witness :
  (binary_cross_entropy [1; 2]%R [1]%R 0%R
     = Raise (ValueError "Input arrays must have the same length.")
   /\ binary_focal_cross_entropy [1; 2]%R [1]%R 2%R 0.25%R 0%R
     = Raise (ValueError "Input arrays must have the same length.")
   /\ hinge_loss [1; 2]%R [1]%R
     = Raise (ValueError "Length of predicted and actual array must be same.")
   /\ huber_loss [1; 2]%R [1]%R 1%R
     = Raise (ValueError "Input arrays must have the same length.")
   /\ mean_squared_error [1; 2]%R [1]%R
     = Raise (ValueError "Input arrays must have the same length.")
   /\ mean_absolute_error [1; 2]%R [1]%R
     = Raise (ValueError "Input arrays must have the same length.")
   /\ mean_squared_logarithmic_error [1; 2]%R [1]%R
     = Raise (ValueError "Input arrays must have the same length.")
   /\ mean_absolute_percentage_error [1; 2]%R [1]%R 0%R
     = Raise (ValueError "The length of the two arrays should be the same."))
  /\ categorical_cross_entropy (np_array2 [[1; 0]; [0; 1]]%R)
       (np_array2 [[0.9; 0.1; 0]; [0.2; 0.7; 0.1]]%R) 0%R
     = Raise (ValueError "Input arrays must have the same shape.").
Proof.
  destruct (mismatched_inputs_raise R_numeric R_libm [1; 2]%R [1]%R
              (np_array2 [[1; 0]; [0; 1]]%R)
              (np_array2 [[0.9; 0.1; 0]; [0.2; 0.7; 0.1]]%R) 0%R 2%R 0.25%R 1%R)
    as [H1 H2].
  split.
  - apply H1. simpl. lia.
  - apply H2. simpl. discriminate.
Defined.

(** ** Label validation *)

(** C7: [hinge_loss] raises [ValueError] as soon as one label compares
    unequal to both -1 and 1, and [contrastive_loss] raises [ValueError] as
    soon as one target is neither 0 nor 1 (the length and shape checks
    having passed).  Neither returns a loss then. *)
Theorem invalid_labels_raise :
  forall (F : Type) (N : Numeric F)
         (y_true y_pred : list F) (inputs : array3 F) (target : list Z) (m : F),
    (length y_true = length y_pred ->
     Exists (fun y => num_eqb y (of_int (-1)) = false /\ num_eqb y one = false) y_true ->
     hinge_loss y_true y_pred = Raise (ValueError "y_true can have values -1 or 1 only."))
    /\ (fst (fst (shape3 inputs)) = length target ->
        snd (fst (shape3 inputs)) = 2 ->
        Exists (fun t => t <> 0%Z /\ t <> 1%Z) target ->
        contrastive_loss inputs target m
          = Raise (ValueError "target values must be either 0 or 1.")).
Proof.
  intros F N y_true y_pred inputs target m. split.
  - intros Hlen Hbad. unfold hinge_loss.
    rewrite (length_match_eqb Hlen).
    replace (existsb _ y_true) with true; [reflexivity|].
    symmetry. apply existsb_Exists.
    eapply Exists_impl; [|exact Hbad]. simpl.
    intros y [H1 H2]. now rewrite H1, H2.
  - intros Hbatch Hpair Hbad. unfold contrastive_loss.
    rewrite (length_match_eqb Hbatch). rewrite Hpair. simpl.
    replace (existsb _ target) with true; [reflexivity|].
    symmetry. apply existsb_Exists.
    eapply Exists_impl; [|exact Hbad]. simpl.
    intros t [H0 H1].
    apply Z.eqb_neq in H0, H1. now rewrite H0, H1.
Qed.

Lemma invalid_labels_raise_witness :
  hinge_loss [-1; 1; 10; -1; 1]%float [-4; -0.3; 0.7; 5; 10]%float
    = Raise (ValueError "y_true can have values -1 or 1 only.")
  /\ contrastive_loss contrastive_inputs_float [0; 5]%Z 10%float
    = Raise (ValueError "target values must be either 0 or 1.").
Proof.
  destruct (@invalid_labels_raise float float_numeric
              [-1; 1; 10; -1; 1]%float [-4; -0.3; 0.7; 5; 10]%float
              contrastive_inputs_float [0; 5]%Z 10%float) as [H1 H2].
  split.
  - apply H1.
    + reflexivity.
    + apply Exists_cons_tl, Exists_cons_tl, Exists_cons_hd. split; reflexivity.
  - apply H2.
    + reflexivity.
    + reflexivity.
    + apply Exists_cons_tl, Exists_cons_hd. split; discriminate.
Defined.

(** ** The losses as elementwise formulas *)

(** The code builds whole arrays and reduces them; these lemmas give the
    same results element by element.  They hold for every numeric
    interface, binary64 included: nothing is assumed of the arithmetic. *)

Section Formulas.
Context {F : Type} {N : Numeric F} {L : Libm F}.
Local Open Scope num_scope.

Lemma huber_loss_terms (y_true y_pred : list F) (delta : F) :
  length y_true = length y_pred ->
  huber_loss y_true y_pred delta
  = Ok (np_mean
          (zip_with
             (fun y p =>
                if nabs (y - p) <=? delta
                then half * square (y - p)
                else delta * (nabs (y - p) - half * delta))
             y_true y_pred)).
Proof.
  intros Hlen. unfold huber_loss. rewrite (length_match_eqb Hlen).
  now rewrite !map_zip_with, np_where_zip_with.
Qed.

Lemma zip_with_map_r {A B B' C : Type} (f : A -> B' -> C) (h : B -> B')
    (xs : list A) (ys : list B) :
  zip_with f xs (map h ys) = zip_with (fun x y => f x (h y)) xs ys.
Proof.
  revert ys; induction xs as [|x xs IH]; intros [|y ys]; simpl; f_equal; auto.
Qed.





(** [contrastive_loss] once its three checks have passed. *)
Lemma select_combine {A B C : Type} (f : B -> bool) (g : A -> C)
    (xs : list A) (ts : list B) :
  select (map f ts) (map g xs)
  = map (fun pt => g (fst pt)) (filter (fun pt => f (snd pt)) (combine xs ts)).
Proof.
  revert ts; induction xs as [|x xs IH]; intros [|t ts]; simpl; auto.
  destruct (f t); simpl; now rewrite IH.
Qed.

Lemma existsb_false_Forall {A : Type} (f : A -> bool) (l : list A) :
  existsb f l = false <-> Forall (fun x => f x = false) l.
Proof.
  induction l as [|x l IH]; simpl.
  - split; auto.
  - rewrite orb_false_iff, IH. split.
    + intros [H1 H2]. constructor; assumption.
    + intros H. inversion H; subst. split; assumption.
Qed.

Lemma contrastive_loss_terms (inputs : array3 F) (target : list Z) (m : F) :
  fst (fst (shape3 inputs)) = length target ->
  snd (fst (shape3 inputs)) = 2%nat ->
  Forall (fun t => t = 0%Z \/ t = 1%Z) target ->
  contrastive_loss inputs target m
  = Ok (np_sum (map (fun pt => norm (subtract_reduce (fst pt)))
                    (filter (fun pt => (snd pt =? 0)%Z)
                            (combine (planes3 inputs) target)))
        + np_sum (map (fun pt => nmaximum zero (m - norm (subtract_reduce (fst pt))))
                      (filter (fun pt => (snd pt =? 1)%Z)
                              (combine (planes3 inputs) target)))).
Proof.
  intros Hbatch Hpair Htarget. unfold contrastive_loss.
  rewrite (length_match_eqb Hbatch), Hpair. simpl negb. cbv iota.
  replace (existsb _ target) with false.
  2:{ symmetry. apply existsb_false_Forall.
      eapply Forall_impl; [|exact Htarget]. simpl. intros t [-> | ->]; reflexivity. }
  f_equal. rewrite map_map.
  rewrite !select_combine with (g := fun pair => norm (subtract_reduce pair)), map_map.
  simpl. f_equal.
  - do 2 f_equal. apply filter_ext. intros [pair t]. simpl.
    now rewrite negb_involutive.
  - do 2 f_equal. apply filter_ext_in. intros [pair t] Hin. simpl.
    apply in_combine_r in Hin. rewrite Forall_forall in Htarget.
    destruct (Htarget t Hin) as [-> | ->]; reflexivity.
Qed.

Lemma norm_of_pair (u v : list F) :
  norm (subtract_reduce [u; v])
  = nsqrt (np_sum (zip_with (fun a b => square (a - b)) u v)).
Proof.
  unfold norm, subtract_reduce. simpl fold_left. now rewrite map_zip_with.
Qed.

(** The two rejections of [categorical_cross_entropy], through the code's
    own comparisons. *)
Lemma one_hot_check_fails (rows : list (list F)) :
  existsb (existsb (fun y => (y != zero) && (y != one))) rows
    || existsb (fun s => s != one) (map np_sum rows) = true
  <-> Exists (fun row => Exists (fun y => (y == zero) = false /\ (y == one) = false) row
                         \/ (np_sum row == one) = false) rows.
Proof.
  rewrite orb_true_iff, !existsb_Exists, Exists_map, !Exists_exists. split.
  - intros [(row & Hin & Hrow) | (row & Hin & Hrow)]; exists row; split; auto.
    + left. apply existsb_Exists in Hrow. eapply Exists_impl; [|exact Hrow]. simpl.
      intros y Hy. apply andb_true_iff in Hy. destruct Hy as [H0 H1].
      now apply negb_true_iff in H0, H1.
    + right. now apply negb_true_iff in Hrow.
  - intros (row & Hin & [Hrow | Hrow]).
    + left. exists row. split; [assumption|]. apply existsb_Exists.
      eapply Exists_impl; [|exact Hrow]. simpl. intros y [H0 H1]. now rewrite H0, H1.
    + right. exists row. split; [assumption|]. now rewrite Hrow.
Qed.

Lemma one_hot_check_passes (rows : list (list F)) :
  existsb (existsb (fun y => (y != zero) && (y != one))) rows
    || existsb (fun s => s != one) (map np_sum rows) = false
  <-> Forall (fun row => Forall (fun y => (y == zero) = true \/ (y == one) = true) row
                         /\ (np_sum row == one) = true) rows.
Proof.
  rewrite orb_false_iff, !existsb_false_Forall, Forall_map, !Forall_forall. split.
  - intros [H1 H2] row Hin. split.
    + specialize (H1 row Hin). apply existsb_false_Forall in H1.
      eapply Forall_impl; [|exact H1]. simpl. intros y Hy.
      apply andb_false_iff in Hy. destruct Hy as [Hy | Hy];
        apply negb_false_iff in Hy; auto.
    + specialize (H2 row Hin). now apply negb_false_iff in H2.
  - intros H. split; intros row Hin; destruct (H row Hin) as [Hbin Hsum].
    + apply existsb_false_Forall. eapply Forall_impl; [|exact Hbin]. simpl.
      intros y [Hy | Hy]; rewrite Hy; simpl; [reflexivity | apply andb_false_r].
    + now rewrite Hsum.
Qed.

End Formulas.

(** ** Sums and means over the reals *)

Section RealInstance.
Local Open Scope R_scope.

Lemma fold_left_Rplus (l : list R) (a : R) :
  fold_left Rplus l a = a + real_sum l.
Proof.
  revert a; induction l as [|x l IH]; intros a; simpl.
  - lra.
  - rewrite IH. lra.
Qed.

Lemma np_sum_real (l : list R) : np_sum l = real_sum l.
Proof.
  unfold np_sum. simpl. rewrite fold_left_Rplus. lra.
Qed.

Lemma np_mean_real (l : list R) : np_mean l = real_mean l.
Proof.
  unfold np_mean, real_mean. rewrite np_sum_real. simpl.
  rewrite <- INR_IZR_INZ. reflexivity.
Qed.

Lemma real_half : (half : R) = 0.5.
Proof.
  unfold half. simpl. lra.
Qed.

Lemma decimal_half : 0.5 = / 2.
Proof.
  lra.
Qed.

(** ** Huber loss *)

Lemma huber_loss_real (y_true y_pred : list R) (delta : R) :
  length y_true = length y_pred ->
  huber_loss y_true y_pred delta = Ok (huber_spec y_true y_pred delta).
Proof.
  intros Hlen. unfold huber_loss, huber_spec.
  rewrite (length_match_eqb Hlen). f_equal.
  rewrite np_mean_real. f_equal.
  rewrite !map_zip_with, np_where_zip_with.
  apply zip_with_ext. intros y p.
  unfold huber_term, square. rewrite real_half, decimal_half. simpl.
  destruct (Rle_dec (Rabs (y - p)) delta); field.
Qed.

Lemma huber_branches_meet (delta e : R) :
  Rabs e = delta -> 0.5 * e ^ 2 = delta * Rabs e - 0.5 * delta ^ 2.
Proof.
  intros H. rewrite <- (pow2_abs e), H, decimal_half. field.
Qed.

Lemma huber_term_quadratic (delta y p : R) :
  Rabs (y - p) <= delta -> huber_term delta y p = 0.5 * (y - p) ^ 2.
Proof.
  intros H. unfold huber_term. destruct (Rle_dec (Rabs (y - p)) delta); [reflexivity|].
  contradiction.
Qed.

Lemma huber_term_linear (delta y p : R) :
  Rabs (y - p) > delta -> huber_term delta y p = delta * Rabs (y - p) - 0.5 * delta ^ 2.
Proof.
  intros H. unfold huber_term. destruct (Rle_dec (Rabs (y - p)) delta); [lra|].
  reflexivity.
Qed.

(** The docstring's value for this input, 2.102, is the exact real result. *)
Lemma huber_loss_docstring_value :
  huber_loss [0.9; 10; 2; 1; 5.2] [0.8; 2.1; 2.9; 4.2; 5.2] 1 = Ok 2.102.
Proof.
  rewrite huber_loss_real by reflexivity. f_equal.
  unfold huber_spec, real_mean. simpl zip_with.
  rewrite (@huber_term_quadratic 1 0.9 0.8) by abs_bound.
  rewrite (@huber_term_linear 1 10 2.1) by abs_bound.
  rewrite (@huber_term_quadratic 1 2 2.9) by abs_bound.
  rewrite (@huber_term_linear 1 1 4.2) by abs_bound.
  rewrite (@huber_term_quadratic 1 5.2 5.2) by abs_bound.
  replace (Rabs (10 - 2.1)) with 7.9 by abs_bound.
  replace (Rabs (1 - 4.2)) with 3.2 by abs_bound.
  simpl. lra.
Qed.

(** With [delta = 0] both branches vanish. *)
Lemma huber_term_zero_delta (y p : R) : huber_term 0 y p = 0.
Proof.
  unfold huber_term. destruct (Rle_dec (Rabs (y - p)) 0) as [H|H].
  - pose proof (Rabs_pos (y - p)) as Hp.
    assert (E : Rabs (y - p) = 0) by lra.
    rewrite <- (pow2_abs (y - p)), E. lra.
  - lra.
Qed.

(** ** Clipping *)

Lemma clip_real (lo hi x : R) : clip lo hi x = Rmin (Rmax x lo) hi.
Proof.
  reflexivity.
Qed.

Lemma clip_within (lo hi x : R) : lo <= hi -> lo <= clip lo hi x <= hi.
Proof.
  intros H. rewrite clip_real. unfold Rmin, Rmax.
  destruct (Rle_dec x lo); destruct (Rle_dec _ hi); lra.
Qed.


(** ** Contrastive loss *)

Lemma norm_of_difference (u v : list R) :
  norm (subtract_reduce [u; v]) = euclidean_distance u v.
Proof.
  unfold norm, subtract_reduce, euclidean_distance. simpl fold_left.
  rewrite np_sum_real, map_zip_with.
  change (@nsqrt R R_numeric) with R_sqrt.sqrt. do 2 f_equal.
  apply zip_with_ext. intros a b. unfold square. simpl. ring.
Qed.

Lemma distances_of_pairs (pairs : list (list (list R))) :
  Forall (fun pair => length pair = 2%nat) pairs ->
  map (fun pair => norm (subtract_reduce pair)) pairs = map pair_distance pairs.
Proof.
  intros H. apply map_ext_in. intros pair Hin.
  rewrite Forall_forall in H. specialize (H pair Hin).
  destruct pair as [|u [|v [|w rest]]]; try discriminate.
  apply norm_of_difference.
Qed.

Lemma wf_array3_pairs {A : Type} (a : array3 A) :
  wf_array3 a = true -> snd (fst (shape3 a)) = 2%nat ->
  Forall (fun pair => length pair = 2%nat) (planes3 a).
Proof.
  unfold wf_array3. intros H Hpair. apply andb_true_iff in H. destruct H as [_ H].
  rewrite forallb_Forall_iff in H. eapply Forall_impl; [|exact H]. simpl.
  intros pair Hp. apply andb_true_iff in Hp. destruct Hp as [Hp _].
  apply Nat.eqb_eq in Hp. congruence.
Qed.

Lemma contrastive_loss_real (inputs : array3 R) (target : list Z) (m : R) :
  wf_array3 inputs = true ->
  fst (fst (shape3 inputs)) = length target ->
  snd (fst (shape3 inputs)) = 2%nat ->
  Forall (fun t => t = 0%Z \/ t = 1%Z) target ->
  contrastive_loss inputs target m = Ok (contrastive_spec (planes3 inputs) target m).
Proof.
  intros Hwf Hbatch Hpair Htarget. unfold contrastive_loss.
  rewrite (length_match_eqb Hbatch), Hpair. simpl negb. cbv iota.
  replace (existsb _ target) with false.
  2:{ symmetry. apply existsb_false_Forall.
      eapply Forall_impl; [|exact Htarget]. simpl. intros t [-> | ->]; reflexivity. }
  f_equal. unfold contrastive_spec.
  rewrite (distances_of_pairs (wf_array3_pairs inputs Hwf Hpair)).
  rewrite !np_sum_real, map_map.
  rewrite !select_combine with (g := pair_distance), map_map. simpl.
  f_equal.
  - do 2 f_equal. apply filter_ext. intros [pair t]. simpl.
    now rewrite negb_involutive.
  - do 2 f_equal. apply filter_ext_in. intros [pair t] Hin. simpl.
    apply in_combine_r in Hin. rewrite Forall_forall in Htarget.
    destruct (Htarget t Hin) as [-> | ->]; reflexivity.
Qed.

Lemma sqrt_lower_bound (a x : R) : 0 <= a -> a * a <= x -> a <= R_sqrt.sqrt x.
Proof.
  intros Ha H. rewrite <- (sqrt_square a Ha). now apply sqrt_le_1_alt.
Qed.

Lemma sqrt_upper_bound (b x : R) : 0 <= b -> x <= b * b -> R_sqrt.sqrt x <= b.
Proof.
  intros Hb H. rewrite <- (sqrt_square b Hb). now apply sqrt_le_1_alt.
Qed.

(** The value of the docstring example, without the rounding of binary64. *)
Lemma contrastive_loss_example_value :
  contrastive_loss contrastive_inputs [0; 1]%Z 10
  = Ok (R_sqrt.sqrt 1.1315212929503538 + Rmax 0 (10 - R_sqrt.sqrt 1.1606004870473883)).
Proof.
  rewrite contrastive_loss_real; try reflexivity.
  2:{ constructor; [left; reflexivity | constructor; [right; reflexivity | constructor]]. }
  unfold contrastive_spec, contrastive_inputs, np_array3, planes3.
  cbn [combine filter snd fst Z.eqb Pos.eqb map pair_distance].
  unfold euclidean_distance, real_sum. cbn [zip_with fold_right].
  f_equal.
  replace (_ + (_ + (_ + (_ + (_ + 0))))) with 1.1315212929503538 by lra.
  replace (_ + (_ + (_ + (_ + (_ + 0))))) with 1.1606004870473883 by lra.
  lra.
Qed.

End RealInstance.

(** ** Binary64 arithmetic *)

Section FloatInstance.
Local Open Scope float_scope.

Lemma prim_zero : Prim2SF 0 = S754_zero false.
Proof.
  reflexivity.
Qed.

(** A finite double minus itself is +0. *)
Lemma finite_sub_diag (x : float) : PrimFloat.is_finite x = true -> x - x = 0.
Proof.
  intros Hfin. apply Prim2SF_inj. rewrite sub_spec, prim_zero.
  unfold PrimFloat.is_finite, PrimFloat.is_nan, PrimFloat.is_infinity in Hfin.
  rewrite !eqb_spec, abs_spec in Hfin.
  destruct (Prim2SF x) as [s|s| |s m e] eqn:E.
  - destruct s; reflexivity.
  - destruct s; discriminate.
  - discriminate.
  - unfold SF64sub, SFsub. cbv zeta. rewrite Z.sub_diag. reflexivity.
Qed.

Lemma digits2_pos_size (p : positive) : digits2_pos p = Pos.size p.
Proof.
  induction p; simpl; congruence.
Qed.

Lemma digits2_pos_iter (p k : positive) :
  digits2_pos (Pos.iter xO p k) = (digits2_pos p + k)%positive.
Proof.
  induction k using Pos.peano_ind.
  - simpl. lia.
  - rewrite Pos.iter_succ. simpl. rewrite IHk. lia.
Qed.

Lemma digits_bound (p : positive) :
  (Zpos p < 2 ^ 53)%Z -> (Zpos (digits2_pos p) <= 53)%Z.
Proof.
  intros H. rewrite digits2_pos_size.
  pose proof (Pos.size_le p) as Hle.
  destruct (Z_le_gt_dec (Zpos (Pos.size p)) 53) as [|Hgt]; [assumption|exfalso].
  assert (Hpow : (2 ^ 54 <= 2 ^ Zpos (Pos.size p))%Z) by (apply Z.pow_le_mono_r; lia).
  assert (Hsize : (Zpos (2 ^ Pos.size p) <= Zpos p~0)%Z)
    by (apply Pos2Z.pos_le_pos; exact Hle).
  rewrite Pos2Z.inj_pow in Hsize. change (Zpos 2) with 2%Z in Hsize.
  rewrite Pos2Z.inj_xO in Hsize. lia.
Qed.

Lemma shr_fexp_exact (m : positive) (e : Z) :
  fexp prec emax (Zpos (digits2_pos m) + e) = e ->
  shr_fexp prec emax (Zpos m) e loc_Exact
  = ({| shr_m := Zpos m; shr_r := false; shr_s := false |}, e).
Proof.
  intros H. unfold shr_fexp, Zdigits2. rewrite H, Z.sub_diag. reflexivity.
Qed.

Lemma binary_round_aux_exact (m : positive) (e : Z) :
  fexp prec emax (Zpos (digits2_pos m) + e) = e ->
  (e <=? emax - prec)%Z = true ->
  binary_round_aux prec emax false (Zpos m) e loc_Exact = S754_finite false m e.
Proof.
  intros H Hle. unfold binary_round_aux.
  rewrite (@shr_fexp_exact m e H).
  cbn [shr_m loc_of_shr_record round_nearest_even].
  rewrite (@shr_fexp_exact m e H).
  cbn [shr_m]. now rewrite Hle.
Qed.

(** A positive integer below 2^53 converts to a positive finite double. *)
Lemma normalize_small (p : positive) :
  (Zpos p < 2 ^ 53)%Z ->
  exists m e, binary_normalize prec emax (Zpos p) 0 false = S754_finite false m e
              /\ valid_binary (S754_finite false m e) = true.
Proof.
  intros Hp. pose proof (@digits_bound p Hp) as Hd.
  unfold binary_normalize, binary_round.
  set (d := digits2_pos p) in *.
  assert (Hfexp : fexp prec emax (Zpos d + 0) = (Zpos d - 53)%Z).
  { unfold fexp, SpecFloat.emin, prec, emax. lia. }
  rewrite Hfexp.
  assert (Hshl : exists mz, shl_align p 0 (Zpos d - 53) = (mz, (Zpos d - 53)%Z)
                            /\ Zpos (digits2_pos mz) = 53%Z).
  { unfold shl_align. destruct (Zpos d - 53 - 0)%Z eqn:E.
    - exists p. split; [f_equal; lia | fold d; lia].
    - lia.
    - eexists. split; [reflexivity|]. rewrite digits2_pos_iter. fold d. lia. }
  destruct Hshl as (mz & -> & Hmz).
  assert (Hcanon : fexp prec emax (Zpos (digits2_pos mz) + (Zpos d - 53))
                   = (Zpos d - 53)%Z).
  { rewrite Hmz. unfold fexp, SpecFloat.emin, prec, emax. lia. }
  assert (Hle : (Zpos d - 53 <=? emax - prec)%Z = true).
  { apply Z.leb_le. unfold emax, prec. lia. }
  exists mz, (Zpos d - 53)%Z. split.
  - apply binary_round_aux_exact; assumption.
  - unfold valid_binary, bounded, canonical_mantissa.
    now rewrite Hcanon, Z.eqb_refl, Hle.
Qed.

Lemma shr_1_digits (q : positive) (r s : bool) :
  (2 <= Zpos (digits2_pos q))%Z ->
  exists q' r' s',
    shr_1 {| shr_m := Zpos q; shr_r := r; shr_s := s |}
    = {| shr_m := Zpos q'; shr_r := r'; shr_s := s' |}
    /\ Zpos (digits2_pos q') = (Zpos (digits2_pos q) - 1)%Z.
Proof.
  intros H. destruct q as [q|q|]; cbn [digits2_pos] in *.
  - exists q, true, (r || s)%bool. split; [reflexivity | lia].
  - exists q, false, (r || s)%bool. split; [reflexivity | lia].
  - exfalso. change (Zpos 1) with 1%Z in H. lia.
Qed.

Lemma iter_shr_1_digits (k : positive) :
  forall (q : positive) (r s : bool),
    (Zpos k < Zpos (digits2_pos q))%Z ->
    exists q' r' s',
      iter_pos shr_1 k {| shr_m := Zpos q; shr_r := r; shr_s := s |}
      = {| shr_m := Zpos q'; shr_r := r'; shr_s := s' |}
      /\ Zpos (digits2_pos q') = (Zpos (digits2_pos q) - Zpos k)%Z.
Proof.
  induction k as [k IH|k IH|]; intros q r s H; cbn [iter_pos].
  - destruct (@shr_1_digits q r s) as (q1 & r1 & s1 & -> & D1); [lia|].
    destruct (IH q1 r1 s1) as (q2 & r2 & s2 & -> & D2); [lia|].
    destruct (IH q2 r2 s2) as (q3 & r3 & s3 & -> & D3); [lia|].
    do 3 eexists. split; [reflexivity | lia].
  - destruct (IH q r s) as (q2 & r2 & s2 & -> & D2); [lia|].
    destruct (IH q2 r2 s2) as (q3 & r3 & s3 & -> & D3); [lia|].
    do 3 eexists. split; [reflexivity | lia].
  - destruct (@shr_1_digits q r s) as (q1 & r1 & s1 & -> & D1); [lia|].
    do 3 eexists. split; [reflexivity | lia].
Qed.

Lemma digits2_pos_succ (q : positive) :
  (Zpos (digits2_pos q) <= Zpos (digits2_pos (Pos.succ q)) <= Zpos (digits2_pos q) + 1)%Z.
Proof.
  induction q as [q IH|q IH|]; simpl; lia.
Qed.

Lemma round_nearest_even_digits (m : positive) (l : location) :
  exists m1, round_nearest_even (Zpos m) l = Zpos m1
             /\ (Zpos (digits2_pos m) <= Zpos (digits2_pos m1)
                 <= Zpos (digits2_pos m) + 1)%Z.
Proof.
  pose proof (digits2_pos_succ m) as Hs.
  assert (E : (Zpos m + 1)%Z = Zpos (Pos.succ m)) by lia.
  unfold round_nearest_even.
  destruct l as [|[| |]]; try (exists m; split; [reflexivity | lia]).
  - destruct (Z.even (Zpos m)).
    + exists m. split; [reflexivity | lia].
    + exists (Pos.succ m). split; [exact E | lia].
  - exists (Pos.succ m). split; [exact E | lia].
Qed.

Lemma finish_round (m : positive) (e : Z) :
  Zpos (digits2_pos m) = 53%Z -> (1 <= e)%Z ->
  finite_or_infinite
    (if (e <=? emax - prec)%Z then S754_finite false m e else S754_infinity false).
Proof.
  intros Hd He. destruct (e <=? emax - prec)%Z eqn:Hle.
  - right. exists m, e. split; [reflexivity|].
    unfold valid_binary, bounded, canonical_mantissa. rewrite Hd, Hle.
    replace (fexp prec emax (53 + e)) with e
      by (unfold fexp, SpecFloat.emin, prec, emax; lia).
    now rewrite Z.eqb_refl.
  - now left.
Qed.

Lemma shr_fexp_shift (m : positive) (e : Z) (l : location) (k : positive) :
  (fexp prec emax (Zpos (digits2_pos m) + e) - e = Zpos k)%Z ->
  (Zpos k < Zpos (digits2_pos m))%Z ->
  exists q r s,
    shr_fexp prec emax (Zpos m) e l
    = ({| shr_m := Zpos q; shr_r := r; shr_s := s |}, (e + Zpos k)%Z)
    /\ Zpos (digits2_pos q) = (Zpos (digits2_pos m) - Zpos k)%Z.
Proof.
  intros Hk Hlt. unfold shr_fexp, Zdigits2. rewrite Hk. unfold shr.
  destruct l as [|[| |]]; unfold shr_record_of_loc;
    match goal with
    | |- context [iter_pos shr_1 k {| shr_m := _; shr_r := ?r; shr_s := ?s |}] =>
        destruct (@iter_shr_1_digits k m r s Hlt) as (q & r' & s' & -> & D)
    end;
    exists q, r', s'; split; auto.
Qed.

(** An integer of 54 bits or more is rounded to 53 bits, or overflows. *)
Lemma normalize_large (p : positive) :
  (54 <= Zpos (digits2_pos p))%Z ->
  finite_or_infinite (binary_normalize prec emax (Zpos p) 0 false).
Proof.
  intros Hd. unfold binary_normalize, binary_round.
  set (d := digits2_pos p) in *.
  assert (Hfexp : fexp prec emax (Zpos d + 0) = (Zpos d - 53)%Z).
  { unfold fexp, SpecFloat.emin, prec, emax. lia. }
  rewrite Hfexp.
  assert (Hshl : shl_align p 0 (Zpos d - 53) = (p, 0%Z)).
  { unfold shl_align. destruct (Zpos d - 53 - 0)%Z eqn:E; try reflexivity. lia. }
  rewrite Hshl. unfold binary_round_aux.
  destruct (Zpos d - 53)%Z as [|k|k] eqn:Ek; try lia.
  destruct (@shr_fexp_shift p 0 loc_Exact k) as (q & r & s & -> & Dq).
  { fold d. rewrite Hfexp. lia. }
  { fold d. lia. }
  fold d in Dq. cbn [shr_m].
  destruct (@round_nearest_even_digits q
              (loc_of_shr_record {| shr_m := Zpos q; shr_r := r; shr_s := s |}))
    as (m1 & -> & Dm1).
  rewrite Z.add_0_l.
  assert (Hcases : Zpos (digits2_pos m1) = 53%Z \/ Zpos (digits2_pos m1) = 54%Z) by lia.
  destruct Hcases as [D53 | D54].
  - rewrite shr_fexp_exact
      by (rewrite D53; unfold fexp, SpecFloat.emin, prec, emax; lia).
    cbn [shr_m]. apply finish_round; lia.
  - destruct (@shr_fexp_shift m1 (Zpos k) loc_Exact 1) as (q2 & r2 & s2 & -> & D2).
    { rewrite D54. unfold fexp, SpecFloat.emin, prec, emax. lia. }
    { lia. }
    cbn [shr_m]. apply finish_round; lia.
Qed.

Lemma digits_large (p : positive) :
  (2 ^ 53 <= Zpos p)%Z -> (54 <= Zpos (digits2_pos p))%Z.
Proof.
  intros H. rewrite digits2_pos_size.
  pose proof (Pos.size_gt p) as Hgt.
  destruct (Z_le_gt_dec 54 (Zpos (Pos.size p))) as [|Hlt]; [assumption|exfalso].
  assert (Hpow : (2 ^ Zpos (Pos.size p) <= 2 ^ 53)%Z) by (apply Z.pow_le_mono_r; lia).
  assert (Hsize : (Zpos p < Zpos (2 ^ Pos.size p))%Z)
    by (apply Pos2Z.pos_lt_pos; exact Hgt).
  rewrite Pos2Z.inj_pow in Hsize. change (Zpos 2) with 2%Z in Hsize. lia.
Qed.

(** Every positive integer converts to a positive double or [+infinity]:
    never to zero, never to NaN. *)
Lemma normalize_positive (p : positive) :
  finite_or_infinite (binary_normalize prec emax (Zpos p) 0 false).
Proof.
  destruct (Z_lt_le_dec (Zpos p) (2 ^ 53)) as [Hlt | Hge].
  - destruct (@normalize_small p Hlt) as (m & e & E & Hv).
    right. exists m, e. rewrite E. split; [reflexivity | assumption].
  - apply normalize_large, digits_large, Hge.
Qed.

(** Zero divided by an element count is zero. *)
Lemma zero_div_count (z : Z) : (0 < z)%Z -> 0 / float_of_int z = 0.
Proof.
  intros Hpos. destruct z as [|p|p]; try lia.
  apply Prim2SF_inj. rewrite div_spec. unfold float_of_int.
  destruct (@normalize_positive p) as [E | (m & e & E & Hv)].
  - rewrite E, Prim2SF_SF2Prim by reflexivity. reflexivity.
  - rewrite (Prim2SF_SF2Prim _ Hv), E. reflexivity.
Qed.

Lemma zip_with_diag {A B : Type} (f : A -> A -> B) (l : list A) :
  zip_with f l l = map (fun x => f x x) l.
Proof.
  induction l as [|x l IH]; simpl; f_equal; auto.
Qed.

Lemma fold_left_add_zeros (l : list float) :
  Forall (fun x => x = 0) l -> fold_left PrimFloat.add l 0 = 0.
Proof.
  induction 1 as [|x l Hx _ IH]; simpl.
  - reflexivity.
  - subst x. exact IH.
Qed.

Lemma zeros_firstn (n : nat) (l : list float) :
  Forall (fun x => x = 0) l -> Forall (fun x => x = 0) (firstn n l).
Proof.
  intros H. revert n. induction H as [|x l Hx _ IH]; intros [|n]; simpl;
    constructor; auto.
Qed.

Lemma zeros_skipn (n : nat) (l : list float) :
  Forall (fun x => x = 0) l -> Forall (fun x => x = 0) (skipn n l).
Proof.
  intros H. revert n. induction H as [|x l Hx Hl IH]; intros [|n]; simpl;
    try constructor; auto.
Qed.

Lemma zeros_add (r x : list float) :
  Forall (fun y => y = 0) r -> Forall (fun y => y = 0) x ->
  Forall (fun y => y = 0) (zip_with PrimFloat.add r x).
Proof.
  intros Hr. revert x. induction Hr as [|a r Ha _ IH]; intros x Hx; simpl.
  - constructor.
  - destruct Hx as [|b x Hb Hx]; constructor.
    + subst a b. reflexivity.
    + now apply IH.
Qed.

Lemma accumulate8_zeros (fuel : nat) (r rest : list float) :
  Forall (fun x => x = 0) r -> Forall (fun x => x = 0) rest ->
  Forall (fun x => x = 0) (fst (accumulate8 fuel r rest))
  /\ Forall (fun x => x = 0) (snd (accumulate8 fuel r rest)).
Proof.
  revert r rest. induction fuel as [|fuel IH]; intros r rest Hr Hrest;
    cbn [accumulate8].
  - split; assumption.
  - destruct (Nat.leb 8 (length rest)).
    + apply IH.
      * apply zeros_add; [assumption | now apply zeros_firstn].
      * now apply zeros_skipn.
    + split; assumption.
Qed.

Lemma block_sum_zeros (a : list float) :
  Forall (fun x => x = 0) a -> block_sum a = 0.
Proof.
  intros Ha. unfold block_sum.
  destruct (@accumulate8_zeros (length a) (firstn 8 a) (skipn 8 a)) as [Hr Hrest].
  { now apply zeros_firstn. }
  { now apply zeros_skipn. }
  destruct (accumulate8 (length a) (firstn 8 a) (skipn 8 a)) as [r rest].
  simpl in Hr, Hrest.
  assert (Hall : fold_left PrimFloat.add (r ++ rest) 0 = 0).
  { apply fold_left_add_zeros, Forall_app. split; assumption. }
  destruct r as [|r0 [|r1 [|r2 [|r3 [|r4 [|r5 [|r6 [|r7 [|r8 r]]]]]]]]];
    try exact Hall.
  repeat match goal with
         | H : Forall _ (_ :: _) |- _ => inversion H; subst; clear H
         end.
  now apply fold_left_add_zeros.
Qed.

Lemma pairwise_sum_zeros (fuel : nat) (a : list float) :
  Forall (fun x => x = 0) a -> pairwise_sum fuel a = 0.
Proof.
  revert a. induction fuel as [|fuel IH]; intros a Ha; cbn [pairwise_sum].
  - destruct (Nat.ltb (length a) 8); [now apply fold_left_add_zeros|].
    destruct (Nat.leb (length a) 128); now apply block_sum_zeros.
  - destruct (Nat.ltb (length a) 8); [now apply fold_left_add_zeros|].
    destruct (Nat.leb (length a) 128); [now apply block_sum_zeros|].
    rewrite (IH _ (zeros_firstn _ Ha)), (IH _ (zeros_skipn _ Ha)). reflexivity.
Qed.

Lemma mean_of_zeros (l : list float) :
  l <> [] -> Forall (fun x => x = 0) l -> np_mean l = 0.
Proof.
  intros Hne Hz. unfold np_mean, np_sum. simpl. unfold float_sum.
  rewrite (pairwise_sum_zeros _ Hz).
  change (0 + 0) with 0.
  apply zero_div_count.
  destruct l; [contradiction | simpl; lia].
Qed.

(** ** A loss against itself *)

(** C6, as the code has it: the error of the empty array against itself is
    the empty mean, NaN, which is not 0. *)
Lemma error_of_empty_array_is_nan :
  mean_squared_error (@nil float) [] = Ok PrimFloat.nan
  /\ mean_absolute_error (@nil float) [] = Ok PrimFloat.nan
  /\ PrimFloat.eqb PrimFloat.nan 0 = false.
Proof.
  repeat split.
Qed.

(** An array holding an infinity or a NaN gives NaN as well. *)
Lemma error_of_non_finite_array_is_nan :
  mean_squared_error [PrimFloat.infinity] [PrimFloat.infinity] = Ok PrimFloat.nan
  /\ mean_absolute_error [PrimFloat.nan] [PrimFloat.nan] = Ok PrimFloat.nan.
Proof.
  split; reflexivity.
Qed.

(** C6 (amended): for every non-empty array [y] of finite doubles,
    [mean_squared_error y y] and [mean_absolute_error y y] are both 0. *)
Theorem error_against_itself_is_zero :
  forall y : list float,
    y <> [] ->
    Forall (fun x => PrimFloat.is_finite x = true) y ->
    mean_squared_error y y = Ok 0 /\ mean_absolute_error y y = Ok 0.
Proof.
  intros y Hne Hfin.
  assert (Hdiff : Forall (fun x => x = 0) (zip_with nsub y y)).
  { rewrite zip_with_diag. apply Forall_map.
    eapply Forall_impl; [|exact Hfin]. simpl. intros x Hx. now apply finite_sub_diag. }
  assert (Hsize : length (zip_with nsub y y) = length y)
    by (rewrite zip_with_length; lia).
  unfold mean_squared_error, mean_absolute_error.
  rewrite (length_match_eqb (eq_refl (length y))). split; f_equal.
  - apply mean_of_zeros.
    + intros E. apply (f_equal (@length float)) in E.
      rewrite length_map, Hsize in E. destruct y; [contradiction | discriminate].
    + apply Forall_map. eapply Forall_impl; [|exact Hdiff]. simpl.
      intros x ->. reflexivity.
  - apply mean_of_zeros.
    + intros E. apply (f_equal (@length float)) in E.
      rewrite length_map, Hsize in E. destruct y; [contradiction | discriminate].
    + apply Forall_map. eapply Forall_impl; [|exact Hdiff]. simpl.
      intros x ->. reflexivity.
Qed.

Lemma error_against_itself_is_zero_witness :
  mean_squared_error [0.8; 2.1; 2.9; 4.2; 5.2] [0.8; 2.1; 2.9; 4.2; 5.2] = Ok 0
  /\ mean_absolute_error [0.8; 2.1; 2.9; 4.2; 5.2] [0.8; 2.1; 2.9; 4.2; 5.2] = Ok 0.
Proof.
  apply (@error_against_itself_is_zero [0.8; 2.1; 2.9; 4.2; 5.2]).
  - discriminate.
  - repeat constructor.
Defined.

End FloatInstance.

(** ** Comparisons in binary64 *)

Section FloatOrder.
Local Open Scope float_scope.








(** An absolute value is never at or below a negative bound (nor is a NaN). *)
Lemma abs_not_below_negative (e delta : float) :
  (delta <? 0) = true -> (abs e <=? delta) = false.
Proof.
  rewrite ltb_spec, leb_spec, abs_spec, prim_zero. unfold SFltb, SFleb.
  destruct (Prim2SF delta) as [s|s| |s m x], (Prim2SF e) as [t|t| |t n y]; simpl;
    try discriminate; try reflexivity; destruct s; try discriminate; reflexivity.
Qed.


End FloatOrder.

(** ** The label bound of [perplexity_loss] *)

Section Perplexity.
Context {F : Type} {N : Numeric F} {L : Libm F}.

Lemma np_max_in (a : list Z) (m : Z) : np_max a = Some m -> In m a.
Proof.
  destruct a as [|x rest]; simpl; [discriminate|].
  intros E. injection E as <-.
  revert x. induction rest as [|y rest IH]; intros x; simpl.
  - now left.
  - destruct (IH (Z.max x y)) as [E | Hin].
    + rewrite <- E.
      destruct (Z.max_spec x y) as [[_ Hm] | [_ Hm]]; rewrite Hm; auto.
    + auto.
Qed.

Lemma np_max_upper (a : list Z) (m : Z) :
  np_max a = Some m -> Forall (fun x => (x <= m)%Z) a.
Proof.
  destruct a as [|x rest]; simpl; [discriminate|].
  intros E. injection E as <-.
  assert (G : forall acc, (acc <= fold_left Z.max rest acc)%Z
                          /\ Forall (fun y => (y <= fold_left Z.max rest acc)%Z) rest).
  { induction rest as [|y rest IH]; intros acc; simpl.
    - split; [lia | constructor].
    - destruct (IH (Z.max acc y)) as [H1 H2]. split; [lia|].
      constructor; [lia | assumption]. }
  destruct (G x) as [H1 H2]. constructor; assumption.
Qed.

(** The vocabulary size itself is no index of a vocabulary of that size. *)
Lemma eye_index_vocab_size (n : nat) :
  eye_index n (Z.of_nat n) = Raise (IndexError (Z.of_nat n) n).
Proof.
  unfold eye_index.
  replace (Z.of_nat n <? Z.of_nat n)%Z with false by (symmetry; apply Z.ltb_irrefl).
  rewrite andb_false_r.
  replace (Z.of_nat n <? 0)%Z with false by (symmetry; apply Z.ltb_ge; lia).
  now rewrite andb_false_r.
Qed.

Lemma eye_index_raises (n : nat) (word : Z) (e : exn) :
  eye_index n word = Raise e -> e = IndexError word n.
Proof.
  unfold eye_index.
  destruct ((0 <=? word)%Z && (word <? Z.of_nat n)%Z); [discriminate|].
  destruct ((- Z.of_nat n <=? word)%Z && (word <? 0)%Z); [discriminate|].
  intros E. now injection E as <-.
Qed.

(** A comprehension raises exactly when its body raises on some element,
    and then with an exception of the body. *)
Lemma map_result_raise_intro {A B : Type} (f : A -> result B) (l : list A) :
  Exists (fun x => exists e, f x = Raise e) l ->
  exists e, map_result f l = Raise e.
Proof.
  induction l as [|x l IH]; intros Hex; [inversion Hex|]. simpl.
  destruct (f x) as [y|e] eqn:Ex; simpl; [|eauto].
  inversion Hex as [? ? [e He] | ? ? Hl]; subst; [congruence|].
  destruct (IH Hl) as (e & ->). simpl. eauto.
Qed.

Lemma map_result_raise_inv {A B : Type} (f : A -> result B) (l : list A) (e : exn) :
  map_result f l = Raise e -> exists x, In x l /\ f x = Raise e.
Proof.
  induction l as [|x l IH]; simpl; [discriminate|].
  destruct (f x) as [y|e'] eqn:Ex; simpl.
  - destruct (map_result f l) as [ys|e'']; simpl; [discriminate|].
    intros E. injection E as ->.
    destruct (IH eq_refl) as (x' & Hin & Hx'). eauto.
  - intros E. injection E as ->. eauto.
Qed.

(** When the largest label equals the vocabulary size, the check
    [np.max(y_true) > vocab_size] lets it through and building the one-hot
    filter raises [IndexError]. *)
Lemma perplexity_loss_largest_label_is_vocab_size
    (y_true : array2 Z) (y_pred : array3 F) (epsilon : F) :
  fst (shape2 y_true) = fst (fst (shape3 y_pred)) ->
  snd (shape2 y_true) = snd (fst (shape3 y_pred)) ->
  np_max (concat (rows2 y_true)) = Some (Z.of_nat (snd (shape3 y_pred))) ->
  exists word,
    perplexity_loss y_true y_pred epsilon = Raise (IndexError word (snd (shape3 y_pred))).
Proof.
  intros Hbatch Hlen Hmax. unfold perplexity_loss.
  rewrite (length_match_eqb Hbatch), (length_match_eqb Hlen), Hmax, Z.ltb_irrefl.
  set (V := snd (shape3 y_pred)) in *.
  apply np_max_in, in_concat in Hmax. destruct Hmax as (row & Hrow & Hword).
  destruct (@map_result_raise_intro _ _ (map_result (eye_index (F := F) V)) (rows2 y_true))
    as (e & He).
  { apply Exists_exists. exists row. split; [assumption|].
    apply map_result_raise_intro, Exists_exists.
    exists (Z.of_nat V). split; [assumption|].
    eexists. apply eye_index_vocab_size. }
  rewrite He. simpl.
  apply map_result_raise_inv in He. destruct He as (row' & _ & He).
  apply map_result_raise_inv in He. destruct He as (word & _ & He).
  apply eye_index_raises in He. subst e. eauto.
Qed.

(** A label above the vocabulary size is rejected with [ValueError]. *)
Lemma perplexity_loss_label_above_vocab_size
    (y_true : array2 Z) (y_pred : array3 F) (epsilon : F) :
  fst (shape2 y_true) = fst (fst (shape3 y_pred)) ->
  snd (shape2 y_true) = snd (fst (shape3 y_pred)) ->
  Exists (fun word => (Z.of_nat (snd (shape3 y_pred)) < word)%Z) (concat (rows2 y_true)) ->
  perplexity_loss y_true y_pred epsilon
    = Raise (ValueError "Label value must not be greater than vocabulary size.").
Proof.
  intros Hbatch Hlen Hbig. unfold perplexity_loss.
  rewrite (length_match_eqb Hbatch), (length_match_eqb Hlen).
  destruct (np_max (concat (rows2 y_true))) as [largest|] eqn:Hmax.
  - apply np_max_upper in Hmax. rewrite Forall_forall in Hmax.
    apply Exists_exists in Hbig. destruct Hbig as (word & Hin & Hword).
    specialize (Hmax word Hin).
    replace (Z.of_nat (snd (shape3 y_pred)) <? largest)%Z with true; [reflexivity|].
    symmetry. apply Z.ltb_lt. lia.
  - destruct (concat (rows2 y_true)); [inversion Hbig | discriminate].
Qed.

End Perplexity.

(** C1, as the code has it: with the docstring's predictions (vocabulary
    size 5) and the label 5 in [y_true], the bound check passes and the call
    ends in [IndexError], not in the module's [ValueError]; the label 6 is
    rejected as documented. *)
Theorem perplexity_loss_label_equal_to_vocab_size :
  forall (L : Libm float) (epsilon : float),
    perplexity_loss (np_array2 [[1; 4]; [2; 5]]%Z) perplexity_y_pred epsilon
      = Raise (IndexError 5 5)
    /\ ~ is_invalid_input
           (perplexity_loss (np_array2 [[1; 4]; [2; 5]]%Z) perplexity_y_pred epsilon)
    /\ perplexity_loss (np_array2 [[1; 4]; [2; 6]]%Z) perplexity_y_pred epsilon
      = Raise (ValueError "Label value must not be greater than vocabulary size.").
Proof.
  intros L epsilon.
  assert (E : perplexity_loss (np_array2 [[1; 4]; [2; 5]]%Z) perplexity_y_pred epsilon
              = Raise (IndexError 5 5)) by reflexivity.
  split; [exact E|]. split.
  - rewrite E. simpl. auto.
  - reflexivity.
Qed.

(** ** No mutation of the arguments *)

Section Frame.
Context {F : Type} {N : Numeric F} {L : Libm F}.

Lemma allocates_only_ret {A : Type} (x : A) : allocates_only (F := F) (ret x).
Proof.
  intros h. exists []. simpl. now rewrite app_nil_r.
Qed.

Lemma allocates_only_bind {A B : Type} (m : M (F := F) A) (k : A -> M B) :
  allocates_only m -> (forall x, allocates_only (k x)) -> allocates_only (bind m k).
Proof.
  intros Hm Hk h. unfold bind.
  destruct (Hm h) as [fresh1 E1]. destruct (m h) as [x h1]. simpl in E1. subst h1.
  destruct (Hk x (h ++ fresh1)) as [fresh2 E2].
  exists (fresh1 ++ fresh2). now rewrite E2, app_assoc.
Qed.

Lemma allocates_only_new (o : ndarray (F := F)) : allocates_only (new o).
Proof.
  intros h. exists [o]. reflexivity.
Qed.

Lemma allocates_only_floats1 (r : ref) : allocates_only (floats1 (F := F) r).
Proof.
  intros h. exists []. simpl. now rewrite app_nil_r.
Qed.

Lemma allocates_only_floats2 (r : ref) : allocates_only (floats2 (F := F) r).
Proof.
  intros h. exists []. simpl. now rewrite app_nil_r.
Qed.

Lemma allocates_only_floats3 (r : ref) : allocates_only (floats3 (F := F) r).
Proof.
  intros h. exists []. simpl. now rewrite app_nil_r.
Qed.

Lemma allocates_only_ints1 (r : ref) : allocates_only (ints1 (F := F) r).
Proof.
  intros h. exists []. simpl. now rewrite app_nil_r.
Qed.

Lemma allocates_only_ints2 (r : ref) : allocates_only (ints2 (F := F) r).
Proof.
  intros h. exists []. simpl. now rewrite app_nil_r.
Qed.

Lemma allocates_only_unchanged {A : Type} (m : M (F := F) A) (h : heap) :
  allocates_only m -> unchanged h (snd (m h)).
Proof.
  intros Hm. destruct (Hm h) as [fresh ->]. intros r o Hr.
  rewrite nth_error_app1; [assumption|].
  apply nth_error_Some. congruence.
Qed.

Lemma call_outcome {A : Type} (m : M (F := F) A) (h : heap) (v : A) :
  allocates_only m -> fst (m h) = v ->
  let (x, h') := m h in x = v /\ unchanged h h'.
Proof.
  intros Hm Hv. pose proof (allocates_only_unchanged h Hm) as Hu.
  destruct (m h) as [x h']. simpl in *. auto.
Qed.

#[local] Hint Resolve allocates_only_ret allocates_only_new allocates_only_bind
  allocates_only_floats1 allocates_only_floats2 allocates_only_floats3
  allocates_only_ints1 allocates_only_ints2 : alloc.
#[local] Hint Extern 2 (allocates_only (if ?c then _ else _)) => destruct c : alloc.
#[local] Hint Extern 2 (allocates_only (match ?c with _ => _ end)) => destruct c : alloc.

Lemma binary_cross_entropy_allocates (y_true y_pred : ref) (epsilon : F) :
  allocates_only (binary_cross_entropy_st y_true y_pred epsilon).
Proof.
  unfold binary_cross_entropy_st. cbv zeta. auto 40 with alloc.
Qed.

Lemma binary_focal_cross_entropy_allocates (y_true y_pred : ref) (gamma alpha epsilon : F) :
  allocates_only (binary_focal_cross_entropy_st y_true y_pred gamma alpha epsilon).
Proof.
  unfold binary_focal_cross_entropy_st. cbv zeta. auto 40 with alloc.
Qed.

Lemma categorical_cross_entropy_allocates (y_true y_pred : ref) (epsilon : F) :
  allocates_only (categorical_cross_entropy_st y_true y_pred epsilon).
Proof.
  unfold categorical_cross_entropy_st. cbv zeta. auto 40 with alloc.
Qed.

Lemma hinge_loss_allocates (y_true y_pred : ref) :
  allocates_only (hinge_loss_st (F := F) y_true y_pred).
Proof.
  unfold hinge_loss_st. cbv zeta. auto 40 with alloc.
Qed.

Lemma huber_loss_allocates (y_true y_pred : ref) (delta : F) :
  allocates_only (huber_loss_st y_true y_pred delta).
Proof.
  unfold huber_loss_st. cbv zeta. auto 40 with alloc.
Qed.

Lemma mean_squared_error_allocates (y_true y_pred : ref) :
  allocates_only (mean_squared_error_st (F := F) y_true y_pred).
Proof.
  unfold mean_squared_error_st. cbv zeta. auto 40 with alloc.
Qed.

Lemma mean_absolute_error_allocates (y_true y_pred : ref) :
  allocates_only (mean_absolute_error_st (F := F) y_true y_pred).
Proof.
  unfold mean_absolute_error_st. cbv zeta. auto 40 with alloc.
Qed.

Lemma mean_squared_logarithmic_error_allocates (y_true y_pred : ref) :
  allocates_only (mean_squared_logarithmic_error_st (F := F) y_true y_pred).
Proof.
  unfold mean_squared_logarithmic_error_st. cbv zeta. auto 40 with alloc.
Qed.

Lemma mean_absolute_percentage_error_allocates (y_true y_pred : ref) (epsilon : F) :
  allocates_only (mean_absolute_percentage_error_st y_true y_pred epsilon).
Proof.
  unfold mean_absolute_percentage_error_st. cbv zeta. auto 40 with alloc.
Qed.

Lemma perplexity_loss_allocates (y_true y_pred : ref) (epsilon : F) :
  allocates_only (perplexity_loss_st y_true y_pred epsilon).
Proof.
  unfold perplexity_loss_st. cbv zeta. auto 40 with alloc.
Qed.

Lemma contrastive_loss_allocates (inputs target : ref) (m : F) :
  allocates_only (contrastive_loss_st inputs target m).
Proof.
  unfold contrastive_loss_st. cbv zeta. auto 40 with alloc.
Qed.

(** *** The heap versions compute what the value versions compute *)

Lemma read_new (h : heap (F := F)) (o : ndarray) : nth_error (h ++ [o]) (length h) = Some o.
Proof.
  rewrite nth_error_app2 by lia. now rewrite Nat.sub_diag.
Qed.

#[local] Hint Rewrite read_new : heap_reads.

Lemma binary_cross_entropy_st_value
    (h : heap) (y_true y_pred : ref) (t p : list F) (epsilon : F) :
  nth_error h y_true = Some (Floats1 t) ->
  nth_error h y_pred = Some (Floats1 p) ->
  fst (binary_cross_entropy_st y_true y_pred epsilon h) = binary_cross_entropy t p epsilon.
Proof.
  intros Ht Hp. unfold binary_cross_entropy_st, binary_cross_entropy.
  run. rewrite Ht, Hp. run.
  destruct (negb (Nat.eqb (length t) (length p))); run; reflexivity.
Qed.

Lemma binary_focal_cross_entropy_st_value
    (h : heap) (y_true y_pred : ref) (t p : list F) (gamma alpha epsilon : F) :
  nth_error h y_true = Some (Floats1 t) ->
  nth_error h y_pred = Some (Floats1 p) ->
  fst (binary_focal_cross_entropy_st y_true y_pred gamma alpha epsilon h)
  = binary_focal_cross_entropy t p gamma alpha epsilon.
Proof.
  intros Ht Hp. unfold binary_focal_cross_entropy_st, binary_focal_cross_entropy.
  run. rewrite Ht, Hp. run.
  destruct (negb (Nat.eqb (length t) (length p))); run; reflexivity.
Qed.

Lemma categorical_cross_entropy_st_value
    (h : heap) (y_true y_pred : ref) (t p : array2 F) (epsilon : F) :
  nth_error h y_true = Some (Floats2 t) ->
  nth_error h y_pred = Some (Floats2 p) ->
  fst (categorical_cross_entropy_st y_true y_pred epsilon h)
  = categorical_cross_entropy t p epsilon.
Proof.
  intros Ht Hp. unfold categorical_cross_entropy_st, categorical_cross_entropy.
  run. rewrite Ht, Hp. run.
  destruct (negb (shape2_eqb (shape2 t) (shape2 p))); run; [reflexivity|].
  destruct (existsb _ (rows2 t) || existsb _ (map np_sum (rows2 t))); run; [reflexivity|].
  destruct (negb (forallb _ (map np_sum (rows2 p)))); run; reflexivity.
Qed.

Lemma hinge_loss_st_value (h : heap) (y_true y_pred : ref) (t p : list F) :
  nth_error h y_true = Some (Floats1 t) ->
  nth_error h y_pred = Some (Floats1 p) ->
  fst (hinge_loss_st y_true y_pred h) = hinge_loss t p.
Proof.
  intros Ht Hp. unfold hinge_loss_st, hinge_loss.
  run. rewrite Ht, Hp. run.
  destruct (negb (Nat.eqb (length t) (length p))); run; [reflexivity|].
  destruct (existsb _ t); run; reflexivity.
Qed.

Lemma huber_loss_st_value (h : heap) (y_true y_pred : ref) (t p : list F) (delta : F) :
  nth_error h y_true = Some (Floats1 t) ->
  nth_error h y_pred = Some (Floats1 p) ->
  fst (huber_loss_st y_true y_pred delta h) = huber_loss t p delta.
Proof.
  intros Ht Hp. unfold huber_loss_st, huber_loss.
  run. rewrite Ht, Hp. run.
  destruct (negb (Nat.eqb (length t) (length p))); run; [reflexivity|].
  rewrite nth_error_app1 by (rewrite length_app; simpl; lia).
  rewrite read_new. reflexivity.
Qed.

Lemma mean_squared_error_st_value (h : heap) (y_true y_pred : ref) (t p : list F) :
  nth_error h y_true = Some (Floats1 t) ->
  nth_error h y_pred = Some (Floats1 p) ->
  fst (mean_squared_error_st y_true y_pred h) = mean_squared_error t p.
Proof.
  intros Ht Hp. unfold mean_squared_error_st, mean_squared_error.
  run. rewrite Ht, Hp. run.
  destruct (negb (Nat.eqb (length t) (length p))); run; reflexivity.
Qed.

Lemma mean_absolute_error_st_value (h : heap) (y_true y_pred : ref) (t p : list F) :
  nth_error h y_true = Some (Floats1 t) ->
  nth_error h y_pred = Some (Floats1 p) ->
  fst (mean_absolute_error_st y_true y_pred h) = mean_absolute_error t p.
Proof.
  intros Ht Hp. unfold mean_absolute_error_st, mean_absolute_error.
  run. rewrite Ht, Hp. run.
  destruct (negb (Nat.eqb (length t) (length p))); run; reflexivity.
Qed.

Lemma mean_squared_logarithmic_error_st_value
    (h : heap) (y_true y_pred : ref) (t p : list F) :
  nth_error h y_true = Some (Floats1 t) ->
  nth_error h y_pred = Some (Floats1 p) ->
  fst (mean_squared_logarithmic_error_st y_true y_pred h)
  = mean_squared_logarithmic_error t p.
Proof.
  intros Ht Hp. unfold mean_squared_logarithmic_error_st, mean_squared_logarithmic_error.
  run. rewrite Ht, Hp. run.
  destruct (negb (Nat.eqb (length t) (length p))); run; reflexivity.
Qed.

Lemma mean_absolute_percentage_error_st_value
    (h : heap) (y_true y_pred : ref) (t p : list F) (epsilon : F) :
  nth_error h y_true = Some (Floats1 t) ->
  nth_error h y_pred = Some (Floats1 p) ->
  fst (mean_absolute_percentage_error_st y_true y_pred epsilon h)
  = mean_absolute_percentage_error t p epsilon.
Proof.
  intros Ht Hp. unfold mean_absolute_percentage_error_st, mean_absolute_percentage_error.
  run. rewrite Ht, Hp. run.
  destruct (negb (Nat.eqb (length t) (length p))); run; reflexivity.
Qed.

Lemma perplexity_loss_st_value
    (h : heap) (y_true y_pred : ref) (t : array2 Z) (p : array3 F) (epsilon : F) :
  nth_error h y_true = Some (Ints2 t) ->
  nth_error h y_pred = Some (Floats3 p) ->
  fst (perplexity_loss_st y_true y_pred epsilon h) = perplexity_loss t p epsilon.
Proof.
  intros Ht Hp. unfold perplexity_loss_st, perplexity_loss.
  run. rewrite Ht, Hp. run.
  destruct (negb (Nat.eqb (fst (shape2 t)) (fst (fst (shape3 p))))); run; [reflexivity|].
  destruct (negb (Nat.eqb (snd (shape2 t)) (snd (fst (shape3 p))))); run; [reflexivity|].
  destruct (np_max (concat (rows2 t))) as [largest|]; run; [|reflexivity].
  destruct (Z.of_nat (snd (shape3 p)) <? largest)%Z; run; [reflexivity|].
  destruct (map_result _ (rows2 t)) as [planes|e]; run; reflexivity.
Qed.

Lemma contrastive_loss_st_value
    (h : heap) (inputs target : ref) (x : array3 F) (t : list Z) (m : F) :
  nth_error h inputs = Some (Floats3 x) ->
  nth_error h target = Some (Ints1 t) ->
  fst (contrastive_loss_st inputs target m h) = contrastive_loss x t m.
Proof.
  intros Hx Ht. unfold contrastive_loss_st, contrastive_loss.
  run. rewrite Hx, Ht. run.
  destruct (negb (Nat.eqb (fst (fst (shape3 x))) (length t))); run; [reflexivity|].
  destruct (negb (Nat.eqb (snd (fst (shape3 x))) 2)); run; [reflexivity|].
  destruct (existsb _ t); run; reflexivity.
Qed.

End Frame.

(** C8: no loss function writes into an array it is given.  In any heap,
    with the arguments referring to arrays of the heap, each of the eleven
    functions returns the loss computed from those arrays and ends in a heap
    where every object from before the call, the arguments among them, is
    unchanged: the arrays it builds (the clipped predictions, the substituted
    labels, the per-element losses) are new objects. *)
Theorem loss_functions_do_not_mutate :
  forall (F : Type) (N : Numeric F) (L : Libm F) (h : heap),
    (forall y_true y_pred t p epsilon,
       nth_error h y_true = Some (Floats1 t) ->
       nth_error h y_pred = Some (Floats1 p) ->
       let (loss, h') := binary_cross_entropy_st y_true y_pred epsilon h in
       loss = binary_cross_entropy t p epsilon /\ unchanged h h')
    /\ (forall y_true y_pred t p gamma alpha epsilon,
       nth_error h y_true = Some (Floats1 t) ->
       nth_error h y_pred = Some (Floats1 p) ->
       let (loss, h') := binary_focal_cross_entropy_st y_true y_pred gamma alpha epsilon h in
       loss = binary_focal_cross_entropy t p gamma alpha epsilon /\ unchanged h h')
    /\ (forall y_true y_pred t p epsilon,
       nth_error h y_true = Some (Floats2 t) ->
       nth_error h y_pred = Some (Floats2 p) ->
       let (loss, h') := categorical_cross_entropy_st y_true y_pred epsilon h in
       loss = categorical_cross_entropy t p epsilon /\ unchanged h h')
    /\ (forall y_true y_pred t p,
       nth_error h y_true = Some (Floats1 t) ->
       nth_error h y_pred = Some (Floats1 p) ->
       let (loss, h') := hinge_loss_st y_true y_pred h in
       loss = hinge_loss t p /\ unchanged h h')
    /\ (forall y_true y_pred t p delta,
       nth_error h y_true = Some (Floats1 t) ->
       nth_error h y_pred = Some (Floats1 p) ->
       let (loss, h') := huber_loss_st y_true y_pred delta h in
       loss = huber_loss t p delta /\ unchanged h h')
    /\ (forall y_true y_pred t p,
       nth_error h y_true = Some (Floats1 t) ->
       nth_error h y_pred = Some (Floats1 p) ->
       let (loss, h') := mean_squared_error_st y_true y_pred h in
       loss = mean_squared_error t p /\ unchanged h h')
    /\ (forall y_true y_pred t p,
       nth_error h y_true = Some (Floats1 t) ->
       nth_error h y_pred = Some (Floats1 p) ->
       let (loss, h') := mean_absolute_error_st y_true y_pred h in
       loss = mean_absolute_error t p /\ unchanged h h')
    /\ (forall y_true y_pred t p,
       nth_error h y_true = Some (Floats1 t) ->
       nth_error h y_pred = Some (Floats1 p) ->
       let (loss, h') := mean_squared_logarithmic_error_st y_true y_pred h in
       loss = mean_squared_logarithmic_error t p /\ unchanged h h')
    /\ (forall y_true y_pred t p epsilon,
       nth_error h y_true = Some (Floats1 t) ->
       nth_error h y_pred = Some (Floats1 p) ->
       let (loss, h') := mean_absolute_percentage_error_st y_true y_pred epsilon h in
       loss = mean_absolute_percentage_error t p epsilon /\ unchanged h h')
    /\ (forall y_true y_pred t p epsilon,
       nth_error h y_true = Some (Ints2 t) ->
       nth_error h y_pred = Some (Floats3 p) ->
       let (loss, h') := perplexity_loss_st y_true y_pred epsilon h in
       loss = perplexity_loss t p epsilon /\ unchanged h h')
    /\ (forall inputs target x t m,
       nth_error h inputs = Some (Floats3 x) ->
       nth_error h target = Some (Ints1 t) ->
       let (loss, h') := contrastive_loss_st inputs target m h in
       loss = contrastive_loss x t m /\ unchanged h h').
Proof.
  intros F N L h. repeat split; intros; apply call_outcome.
  - apply binary_cross_entropy_allocates.
  - now apply binary_cross_entropy_st_value.
  - apply binary_focal_cross_entropy_allocates.
  - now apply binary_focal_cross_entropy_st_value.
  - apply categorical_cross_entropy_allocates.
  - now apply categorical_cross_entropy_st_value.
  - apply hinge_loss_allocates.
  - now apply hinge_loss_st_value.
  - apply huber_loss_allocates.
  - now apply huber_loss_st_value.
  - apply mean_squared_error_allocates.
  - now apply mean_squared_error_st_value.
  - apply mean_absolute_error_allocates.
  - now apply mean_absolute_error_st_value.
  - apply mean_squared_logarithmic_error_allocates.
  - now apply mean_squared_logarithmic_error_st_value.
  - apply mean_absolute_percentage_error_allocates.
  - now apply mean_absolute_percentage_error_st_value.
  - apply perplexity_loss_allocates.
  - now apply perplexity_loss_st_value.
  - apply contrastive_loss_allocates.
  - now apply contrastive_loss_st_value.
Qed.

Lemma loss_functions_do_not_mutate_witness :
  let h := [Floats1 [0; 20]%R; Floats1 [12; 18]%R] in
  let (loss, h') := mean_absolute_percentage_error_st 0 1 0.000000000000001%R h in
  loss = mean_absolute_percentage_error [0; 20]%R [12; 18]%R 0.000000000000001%R
  /\ unchanged h h'.
Proof.
  apply (loss_functions_do_not_mutate R_numeric R_libm
           [Floats1 [0; 20]%R; Floats1 [12; 18]%R]); reflexivity.
Defined.

(** A call of [mean_absolute_percentage_error] on [y_true = [0, 20]]: the
    zero is replaced in a new array, the caller's array still holds it. *)
Lemma mean_absolute_percentage_error_keeps_zero :
  let h := [Floats1 [0; 20]; Floats1 [12; 18]]%float in
  let (loss, h') := mean_absolute_percentage_error_st 0 1 1e-15%float h in
  nth_error h' 0 = Some (Floats1 [0; 20]%float)
  /\ nth_error h' 2 = Some (Floats1 [1e-15; 20]%float)
  /\ loss = mean_absolute_percentage_error [0; 20]%float [12; 18]%float 1e-15%float.
Proof.
  vm_compute. repeat split.
Qed.

(** Clipping in place is what a mutating implementation would do, and the
    heap shows it. *)
Lemma clip_in_place_mutates :
  snd (clip_in_place 0 0.1%float 0.9%float [Floats1 [1.5; -0.2]%float])
  = [Floats1 [0.9; 0.1]%float].
Proof.
  vm_compute. reflexivity.
Qed.

(** ** Docstring values *)

(** The values the doctests print, evaluated in the binary64 instance. *)
Example hinge_loss_docstring :
  hinge_loss [-1; 1; 1; -1; 1]%float [-4; -0.3; 0.7; 5; 10]%float = Ok 1.52%float.
Proof.
  vm_compute. reflexivity.
Qed.

Example mean_absolute_percentage_error_docstring :
  mean_absolute_percentage_error [10; 20; 30; 40]%float [12; 18; 33; 45]%float 1e-15%float
    = Ok 0.13125%float
  /\ mean_absolute_percentage_error [1; 2; 3; 4]%float [2; 3; 4; 5]%float 1e-15%float
    = Ok 0.5208333333333333%float
  /\ mean_absolute_percentage_error
       [34; 37; 44; 47; 48; 48; 46; 43; 32; 27; 26; 24]%float
       [37; 40; 46; 44; 46; 50; 45; 44; 34; 30; 22; 23]%float 1e-15%float
    = Ok 0.064671076436071%float.
Proof.
  repeat split; vm_compute; reflexivity.
Qed.

(** * The claims that depend on the arithmetic *)

(** ** Huber loss *)

(** C3, as the code has it.  With [y_true = [2^512]], [y_pred = [0]] and
    [delta = 2^512], all exact doubles, the documented value [0.5 * e^2] is
    [2^1023], a finite double, but the square overflows and the call returns
    infinity.  Here [|e| = delta], and the linear branch as the code
    computes it is [2^1023]: the two branches do not agree.  Away from
    overflow the code's [delta * (|e| - 0.5 * delta)] and the documented
    [delta * |e| - 0.5 * delta^2] round differently: 0.025000000000000001
    against 0.024999999999999998 for [e = 0.3], [delta = 0.1]. *)
Lemma huber_loss_overflows_in_binary64 :
  huber_loss (F := float) [of_int (2 ^ 512)] [of_int 0] (of_int (2 ^ 512))
    = Ok PrimFloat.infinity
  /\ huber_loss (F := R) [of_int (2 ^ 512)] [of_int 0] (of_int (2 ^ 512))
    = Ok (of_int (2 ^ 1023))
  /\ PrimFloat.is_finite (float_of_int (2 ^ 1023)) = true
  /\ huber_loss (F := float) [of_int (2 ^ 512)] [of_int 0] (of_int (2 ^ 512))
     <> Ok (of_int (2 ^ 1023))
  /\ (float_of_int (2 ^ 512)
      * (abs (float_of_int (2 ^ 512) - float_of_int 0) - 0.5 * float_of_int (2 ^ 512))
      = float_of_int (2 ^ 1023))%float
  /\ huber_loss [0.3]%float [0]%float 0.1%float = Ok 0.025000000000000001%float
  /\ (0.1 * abs (0.3 - 0) - 0.5 * (0.1 * 0.1) = 0.024999999999999998)%float.
Proof.
  split; [vm_compute; reflexivity|].
  split.
  { rewrite huber_loss_real by reflexivity.
    unfold huber_spec, real_mean. cbn [zip_with length real_sum fold_right INR].
    assert (Hpos : (0 <= IZR (2 ^ 512))%R) by (apply IZR_le; lia).
    assert (Hsq : (IZR (2 ^ 512) * IZR (2 ^ 512) = 2 * IZR (2 ^ 1023))%R).
    { rewrite <- !mult_IZR. apply f_equal. vm_compute. reflexivity. }
    change (@of_int R R_numeric) with IZR.
    set (x := IZR (2 ^ 512)) in *. set (w := IZR (2 ^ 1023)) in *.
    rewrite huber_term_quadratic.
    - f_equal. replace ((x - 0) ^ 2)%R with (x * x)%R by ring. lra.
    - rewrite Rabs_pos_eq; lra. }
  split; [vm_compute; reflexivity|].
  split.
  { intros H. apply (f_equal (fun r => match r with
                                       | Ok v => PrimFloat.is_finite v
                                       | Raise _ => false
                                       end)) in H.
    vm_compute in H. discriminate. }
  repeat split; vm_compute; reflexivity.
Qed.

(** C3 (amended): on arrays of equal length [huber_loss] returns the mean
    of the terms [0.5 * e^2] where [|e| <= delta] and
    [delta * (|e| - 0.5 * delta)] elsewhere, with [e = y_true - y_pred], every
    operation being that of the arrays' arithmetic (binary64 for NumPy).  In
    exact real arithmetic, for non-empty arrays, this is the documented
    piecewise formula, and its two branches take the same value where
    [|e| = delta]. *)
Theorem huber_loss_piecewise :
  (forall (F : Type) (N : Numeric F) (y_true y_pred : list F) (delta : F),
     length y_true = length y_pred ->
     huber_loss y_true y_pred delta
     = Ok (np_mean
             (zip_with
                (fun y p =>
                   if nabs (y - p) <=? delta
                   then half * square (y - p)
                   else delta * (nabs (y - p) - half * delta))%num
                y_true y_pred)))
  /\ (forall (y_true y_pred : list R) (delta : R),
        y_true <> [] ->
        length y_true = length y_pred ->
        huber_loss y_true y_pred delta
        = Ok (real_mean
                (zip_with
                   (fun y p =>
                      if Rle_dec (Rabs (y - p)) delta
                      then 0.5 * (y - p) ^ 2
                      else delta * Rabs (y - p) - 0.5 * delta ^ 2)%R
                   y_true y_pred)))
  /\ (forall delta y p : R,
        Rabs (y - p) = delta ->
        (0.5 * (y - p) ^ 2 = delta * Rabs (y - p) - 0.5 * delta ^ 2)%R).
Proof.
  split; [|split].
  - intros F N y_true y_pred delta Hlen. now apply huber_loss_terms.
  - intros y_true y_pred delta _ Hlen. exact (huber_loss_real y_true y_pred delta Hlen).
  - intros delta y p H. now apply huber_branches_meet.
Qed.

Lemma huber_loss_piecewise_witness :
  huber_loss [0.9; 10; 2; 1; 5.2]%float [0.8; 2.1; 2.9; 4.2; 5.2]%float 1%float
  = Ok (np_mean
          (zip_with
             (fun y p =>
                if nabs (y - p) <=? 1%float
                then half * square (y - p)
                else 1%float * (nabs (y - p) - half * 1%float))%num
             [0.9; 10; 2; 1; 5.2]%float [0.8; 2.1; 2.9; 4.2; 5.2]%float)).
Proof.
  apply (proj1 huber_loss_piecewise float float_numeric
           [0.9; 10; 2; 1; 5.2]%float [0.8; 2.1; 2.9; 4.2; 5.2]%float 1%float).
  reflexivity.
Defined.

(** ** Any [delta] *)

Section HuberDelta.
Local Open Scope float_scope.

(** With [delta = 0] and a finite error both branches are [+0]. *)
Lemma huber_term_zero_delta_binary64 (e : float) :
  PrimFloat.is_finite e = true ->
  (if (nabs e <=? 0)%num then (half * square e)%num else (0 * (nabs e - half * 0))%num) = 0.
Proof.
  intros Hfin.
  unfold PrimFloat.is_finite, PrimFloat.is_nan, PrimFloat.is_infinity in Hfin.
  rewrite !eqb_spec, abs_spec in Hfin.
  change (@half float float_numeric) with 0.5.
  simpl num_leb. simpl nabs. unfold square. simpl nmul. simpl nsub.
  change (0.5 * 0) with 0.
  rewrite leb_spec, abs_spec, prim_zero.
  destruct (Prim2SF e) as [s|s| |s m x] eqn:E.
  - simpl. apply Prim2SF_inj. rewrite !mul_spec, E, prim_zero.
    destruct s; reflexivity.
  - destruct s; discriminate.
  - discriminate.
  - simpl. apply Prim2SF_inj.
    rewrite mul_spec, sub_spec, abs_spec, E, prim_zero. reflexivity.
Qed.

End HuberDelta.

(** C9, as the code has it.  With [delta = 0], [y_true = [2^1023]] and
    [y_pred = [-2^1023]], all finite doubles, the documented formula gives 0,
    but the error overflows to infinity and the code's linear branch is
    [0 * infinity]: the call returns NaN.  With the negative
    [delta = -0.1] and [e = 3] the code returns -0.30499999999999999 where
    the documented [delta * |e| - 0.5 * delta^2] rounds to
    -0.30500000000000005. *)
Lemma huber_loss_zero_delta_overflow :
  huber_loss (F := float) [of_int (2 ^ 1023)] [of_int (- 2 ^ 1023)] (of_int 0)
    = Ok PrimFloat.nan
  /\ huber_loss (F := R) [of_int (2 ^ 1023)] [of_int (- 2 ^ 1023)] (of_int 0)
    = Ok (of_int 0)
  /\ PrimFloat.is_finite (float_of_int (2 ^ 1023)) = true
  /\ PrimFloat.is_finite (float_of_int (- 2 ^ 1023)) = true
  /\ huber_loss (F := float) [of_int (2 ^ 1023)] [of_int (- 2 ^ 1023)] (of_int 0)
     <> Ok (of_int 0)
  /\ huber_loss [3]%float [0]%float (-0.1)%float = Ok (-0.30499999999999999)%float
  /\ ((-0.1) * abs (3 - 0) - 0.5 * ((-0.1) * (-0.1)) = -0.30500000000000005)%float.
Proof.
  split; [vm_compute; reflexivity|].
  split.
  { rewrite huber_loss_real by reflexivity.
    unfold huber_spec, real_mean. cbn [zip_with length real_sum fold_right INR].
    change (@of_int R R_numeric) with IZR.
    rewrite huber_term_zero_delta. f_equal. lra. }
  split; [vm_compute; reflexivity|].
  split; [vm_compute; reflexivity|].
  split.
  { intros H. apply (f_equal (fun r => match r with
                                       | Ok v => PrimFloat.is_finite v
                                       | Raise _ => false
                                       end)) in H.
    vm_compute in H. discriminate. }
  repeat split; vm_compute; reflexivity.
Qed.

(** C9 (amended): [huber_loss] never looks at [delta] before using it.  For
    arrays of equal length and any [delta] it returns, without raising, the
    mean of the terms [0.5 * e^2] where [|e| <= delta] and
    [delta * (|e| - 0.5 * delta)] elsewhere, computed in the arrays'
    arithmetic.  In binary64 a negative [delta] sends every element, a NaN
    included, to the second branch, and [delta = 0] gives 0 for a non-empty
    array whose errors are all finite. *)
Theorem huber_loss_accepts_any_delta :
  (forall (F : Type) (N : Numeric F) (y_true y_pred : list F) (delta : F),
     length y_true = length y_pred ->
     huber_loss y_true y_pred delta
     = Ok (np_mean
             (zip_with
                (fun y p =>
                   if nabs (y - p) <=? delta
                   then half * square (y - p)
                   else delta * (nabs (y - p) - half * delta))%num
                y_true y_pred)))
  /\ (forall (y_true y_pred : list float) (delta : float),
        length y_true = length y_pred ->
        PrimFloat.ltb delta 0 = true ->
        huber_loss y_true y_pred delta
        = Ok (np_mean
                (zip_with (fun y p => delta * (abs (y - p) - 0.5 * delta))%float
                          y_true y_pred)))
  /\ (forall y_true y_pred : list float,
        y_true <> [] ->
        length y_true = length y_pred ->
        Forall (fun e => PrimFloat.is_finite e = true)
               (zip_with PrimFloat.sub y_true y_pred) ->
        huber_loss y_true y_pred 0%float = Ok 0%float).
Proof.
  split; [|split].
  - intros F N y_true y_pred delta Hlen. now apply huber_loss_terms.
  - intros y_true y_pred delta Hlen Hneg.
    rewrite (huber_loss_terms y_true y_pred delta Hlen). do 2 f_equal.
    apply zip_with_ext. intros y p. simpl.
    now rewrite (abs_not_below_negative (y - p)%float Hneg).
  - intros y_true y_pred Hne Hlen Hfin.
    rewrite (huber_loss_terms y_true y_pred 0%float Hlen). f_equal.
    apply mean_of_zeros.
    + intros E. apply (f_equal (@length float)) in E.
      rewrite zip_with_length, <- Hlen, Nat.min_id in E.
      destruct y_true; [contradiction | discriminate].
    + rewrite <- (map_zip_with
                    (fun e => if (nabs e <=? 0%float)%num
                              then (half * square e)%num
                              else (0%float * (nabs e - half * 0%float))%num)
                    PrimFloat.sub).
      apply Forall_map. eapply Forall_impl; [|exact Hfin]. simpl.
      intros e He. now apply huber_term_zero_delta_binary64.
Qed.

Lemma huber_loss_accepts_any_delta_witness :
  huber_loss [1; 2]%float [3; 5]%float (-1)%float
  = Ok (np_mean (zip_with (fun y p => (-1) * (abs (y - p) - 0.5 * (-1)))%float
                          [1; 2]%float [3; 5]%float))
  /\ huber_loss [1; 2]%float [3; 5]%float 0%float = Ok 0%float.
Proof.
  destruct huber_loss_accepts_any_delta as (_ & H2 & H3).
  split.
  - apply H2; reflexivity.
  - apply H3; [discriminate | reflexivity | repeat constructor].
Defined.

(** ** Clipping instead of rejecting *)



(** ** One-hot rows and normalised predictions *)

(** C4: on arrays of one shape, with a tolerance [epsilon] that is not
    negative, [categorical_cross_entropy] raises [ValueError] when some row
    of [y_true] has an entry that compares unequal to both 0 and 1 or a sum
    that compares unequal to 1, and when the sum [s] of some row of [y_pred]
    fails [|s - 1| <= epsilon + epsilon * |1|] ([np.isclose] with
    [rtol = atol = epsilon]); it returns a loss exactly when every row passes
    both tests.  Sums and comparisons are those of the arrays' arithmetic,
    whatever it is. *)
Theorem categorical_cross_entropy_validation :
  forall (F : Type) (N : Numeric F) (L : Libm F) (y_true y_pred : array2 F) (epsilon : F),
    shape2 y_true = shape2 y_pred ->
    (zero <=? epsilon)%num = true ->
    (Exists (fun row => Exists (fun y => (y == zero) = false /\ (y == one) = false) row
                        \/ (np_sum row == one) = false)%num
            (rows2 y_true) ->
     categorical_cross_entropy y_true y_pred epsilon
       = Raise (ValueError "y_true must be one-hot encoded."))
    /\ (Exists (fun row => (nabs (np_sum row - one) <=? epsilon + epsilon * nabs one) = false)%num
               (rows2 y_pred) ->
        is_invalid_input (categorical_cross_entropy y_true y_pred epsilon))
    /\ ((exists v, categorical_cross_entropy y_true y_pred epsilon = Ok v)
        <-> Forall (fun row => Forall (fun y => (y == zero) = true \/ (y == one) = true) row
                               /\ (np_sum row == one) = true)%num
                   (rows2 y_true)
            /\ Forall (fun row => (nabs (np_sum row - one) <=? epsilon + epsilon * nabs one)
                                  = true)%num
                      (rows2 y_pred)).
Proof.
  intros F N L y_true y_pred epsilon Hshape _.
  unfold categorical_cross_entropy.
  replace (negb (shape2_eqb (shape2 y_true) (shape2 y_pred))) with false
    by (symmetry; apply negb_false_iff, shape2_eqb_eq, Hshape).
  pose proof (one_hot_check_fails (rows2 y_true)) as Hfails.
  pose proof (one_hot_check_passes (rows2 y_true)) as Hpasses.
  assert (Hpred :
    forallb (fun s => np_isclose s one epsilon epsilon) (map np_sum (rows2 y_pred)) = true
    <-> Forall (fun row => (nabs (np_sum row - one) <=? epsilon + epsilon * nabs one)%num
                           = true) (rows2 y_pred)).
  { rewrite forallb_Forall_iff, Forall_map. reflexivity. }
  destruct (existsb _ (rows2 y_true) || existsb _ (map np_sum (rows2 y_true))) eqn:E1.
  - split; [reflexivity|]. split; [intros _; exact I|]. split.
    + intros [v Hv]. discriminate.
    + intros [H _]. apply Hpasses in H. discriminate.
  - split.
    { intros Hbad. apply Hfails in Hbad. discriminate. }
    destruct (forallb _ (map np_sum (rows2 y_pred))) eqn:E2; simpl.
    + split.
      { intros Hbad. exfalso.
        assert (Hall : Forall (fun row => (nabs (np_sum row - one)
                                           <=? epsilon + epsilon * nabs one)%num = true)
                              (rows2 y_pred)) by (now apply Hpred).
        rewrite Forall_forall in Hall.
        apply Exists_exists in Hbad. destruct Hbad as (row & Hin & Hrow).
        specialize (Hall row Hin). congruence. }
      split.
      * intros _. split; [now apply Hpasses | now apply Hpred].
      * intros _. eexists. reflexivity.
    + split; [intros _; exact I|]. split.
      * intros [v Hv]. discriminate.
      * intros [_ H]. apply Hpred in H. discriminate.
Qed.

Lemma categorical_cross_entropy_validation_witness :
  categorical_cross_entropy
    (np_array2 [[2; 0; 1]; [1; 0; 0]]%R)
    (np_array2 [[0.9; 0.1; 0]; [0.2; 0.7; 0.1]]%R) 0.000000000000001%R
    = Raise (ValueError "y_true must be one-hot encoded.")
  /\ is_invalid_input
       (categorical_cross_entropy
          (np_array2 [[1; 0; 0]; [0; 1; 0]]%R)
          (np_array2 [[0.9; 0.1; 0.1]; [0.2; 0.7; 0.1]]%R) 0.000000000000001%R).
Proof.
  split.
  - apply (@categorical_cross_entropy_validation R R_numeric R_libm
             (np_array2 [[2; 0; 1]; [1; 0; 0]]%R)
             (np_array2 [[0.9; 0.1; 0]; [0.2; 0.7; 0.1]]%R) 0.000000000000001%R).
    + reflexivity.
    + unfold zero. simpl. destruct (Rle_dec _ _); [reflexivity | lra].
    + apply Exists_cons_hd. left. apply Exists_cons_hd. unfold zero, one. simpl.
      split; destruct (Req_dec_T _ _); [lra | reflexivity | lra | reflexivity].
  - apply (@categorical_cross_entropy_validation R R_numeric R_libm
             (np_array2 [[1; 0; 0]; [0; 1; 0]]%R)
             (np_array2 [[0.9; 0.1; 0.1]; [0.2; 0.7; 0.1]]%R) 0.000000000000001%R).
    + reflexivity.
    + unfold zero. simpl. destruct (Rle_dec _ _); [reflexivity | lra].
    + apply Exists_cons_hd. unfold np_sum, zero, one. simpl.
      destruct (Rle_dec _ _) as [H|H]; [|reflexivity].
      exfalso. revert H. unfold Rabs. repeat destruct (Rcase_abs _); lra.
Defined.

(** In binary64 the row sums are rounded: [0.2 + 0.7 + 0.1] is
    0.9999999999999999, so with [epsilon = 0] the row is rejected, and
    [1 + 2^-53 + 2^-53] is 1, so that row is accepted.  The docstring's
    rejected prediction is rejected with the default [epsilon]. *)
Example categorical_cross_entropy_rounded_row_sums :
  forall L : Libm float,
    categorical_cross_entropy
      (np_array2 [[1; 0; 0]]%float) (np_array2 [[0.2; 0.7; 0.1]]%float) 0%float
      = Raise (ValueError "Predicted probabilities must sum to approximately 1.")
    /\ (exists v,
          categorical_cross_entropy
            (np_array2 [[1; 0; 0]]%float)
            (np_array2 [[1; 0x1p-53; 0x1p-53]]%float) 0%float = Ok v)
    /\ categorical_cross_entropy
         (np_array2 [[1; 0; 0]; [0; 1; 0]; [0; 0; 1]]%float)
         (np_array2 [[0.9; 0.1; 0.1]; [0.2; 0.7; 0.1]; [0.0; 0.1; 0.9]]%float) 1e-15%float
       = Raise (ValueError "Predicted probabilities must sum to approximately 1.").
Proof.
  intros L. split; [|split].
  - reflexivity.
  - eexists. reflexivity.
  - reflexivity.
Qed.

(** ** Contrastive loss *)

(** C5, as the code has it.  For the single pair [[2^512], [0]] with target
    0 the Euclidean distance is [2^512], a finite double, but the norm
    squares the difference before taking the root: the square overflows and
    the call returns infinity, not that double. *)
Lemma contrastive_loss_overflows_in_binary64 :
  contrastive_loss (F := float)
    (np_array3 [[[of_int (2 ^ 512)]; [of_int 0]]]) [0%Z] (of_int 10)
    = Ok PrimFloat.infinity
  /\ contrastive_loss (F := R)
       (np_array3 [[[of_int (2 ^ 512)]; [of_int 0]]]) [0%Z] (of_int 10)
     = Ok (of_int (2 ^ 512))
  /\ PrimFloat.is_finite (float_of_int (2 ^ 512)) = true
  /\ contrastive_loss (F := float)
       (np_array3 [[[of_int (2 ^ 512)]; [of_int 0]]]) [0%Z] (of_int 10)
     <> Ok (of_int (2 ^ 512)).
Proof.
  split; [vm_compute; reflexivity|].
  split.
  2:{ split; [vm_compute; reflexivity|].
      intros H. apply (f_equal (fun r => match r with
                                         | Ok v => PrimFloat.is_finite v
                                         | Raise _ => false
                                         end)) in H.
      vm_compute in H. discriminate. }
  rewrite contrastive_loss_real; try reflexivity.
  2:{ constructor; [left; reflexivity | constructor]. }
  unfold contrastive_spec, np_array3, planes3.
  cbn [combine filter snd fst Z.eqb map pair_distance].
  unfold euclidean_distance, real_sum. cbn [zip_with fold_right].
  change (@of_int R R_numeric) with IZR.
  assert (Hpos : (0 <= IZR (2 ^ 512))%R) by (apply IZR_le; lia).
  set (x := IZR (2 ^ 512)) in *. f_equal.
  replace ((x - 0) ^ 2 + 0)%R with (x ^ 2)%R by ring.
  rewrite sqrt_pow2 by assumption. lra.
Qed.

(** C5 (amended): for inputs of shape (B, 2, n) and targets in {0, 1},
    [contrastive_loss] returns the sum of [d] over the pairs with target 0
    plus the sum of [max(0, m - d)] over the pairs with target 1, where [d]
    is the square root of the sum of the squared componentwise differences
    of the pair's two vectors, every operation being that of the arrays'
    arithmetic.  In exact real arithmetic [d] is the Euclidean distance.  On
    the two pairs of the docstring with targets [0, 1] and [m = 10] the real
    value is within 1e-9 of 9.986418202141381, and the binary64 computation
    gives that very double. *)
Theorem contrastive_loss_formula :
  (forall (F : Type) (N : Numeric F) (inputs : array3 F) (target : list Z) (m : F),
     fst (fst (shape3 inputs)) = length target ->
     snd (fst (shape3 inputs)) = 2%nat ->
     Forall (fun t => t = 0%Z \/ t = 1%Z) target ->
     contrastive_loss inputs target m
     = Ok (np_sum (map (fun pt => norm (subtract_reduce (fst pt)))
                       (filter (fun pt => (snd pt =? 0)%Z)
                               (combine (planes3 inputs) target)))
           + np_sum (map (fun pt => nmaximum zero (m - norm (subtract_reduce (fst pt))))
                         (filter (fun pt => (snd pt =? 1)%Z)
                                 (combine (planes3 inputs) target))))%num)
  /\ (forall (F : Type) (N : Numeric F) (u v : list F),
        norm (subtract_reduce [u; v])
        = nsqrt (np_sum (zip_with (fun a b => square (a - b))%num u v)))
  /\ (forall u v : list R,
        norm (subtract_reduce [u; v])
        = R_sqrt.sqrt (real_sum (zip_with (fun a b => (a - b) ^ 2)%R u v)))
  /\ (exists v, contrastive_loss contrastive_inputs [0; 1]%Z 10%R = Ok v
                /\ (Rabs (v - 9.986418202141381) < 0.000000001)%R)
  /\ contrastive_loss contrastive_inputs_float [0; 1]%Z 10%float
     = Ok 9.986418202141381%float.
Proof.
  split; [|split; [|split; [|split]]].
  - intros F N inputs target m Hbatch Hpair Htarget.
    now apply contrastive_loss_terms.
  - intros F N u v. apply norm_of_pair.
  - intros u v. exact (norm_of_difference u v).
  - eexists. split; [apply contrastive_loss_example_value|].
    assert (L1 : (1.0637298966 <= R_sqrt.sqrt 1.1315212929503538)%R)
      by (apply sqrt_lower_bound; lra).
    assert (U1 : (R_sqrt.sqrt 1.1315212929503538 <= 1.0637298967)%R)
      by (apply sqrt_upper_bound; lra).
    assert (L2 : (1.0773116944 <= R_sqrt.sqrt 1.1606004870473883)%R)
      by (apply sqrt_lower_bound; lra).
    assert (U2 : (R_sqrt.sqrt 1.1606004870473883 <= 1.0773116945)%R)
      by (apply sqrt_upper_bound; lra).
    rewrite Rmax_right by lra.
    apply Rabs_def1; lra.
  - vm_compute. reflexivity.
Qed.

Lemma contrastive_loss_formula_witness :
  contrastive_loss contrastive_inputs_float [0; 1]%Z 10%float
  = Ok (np_sum (map (fun pt => norm (subtract_reduce (fst pt)))
                    (filter (fun pt => (snd pt =? 0)%Z)
                            (combine (planes3 contrastive_inputs_float) [0; 1]%Z)))
        + np_sum (map (fun pt => nmaximum zero (10%float - norm (subtract_reduce (fst pt))))
                      (filter (fun pt => (snd pt =? 1)%Z)
                              (combine (planes3 contrastive_inputs_float) [0; 1]%Z))))%num.
Proof.
  apply (proj1 contrastive_loss_formula float float_numeric
           contrastive_inputs_float [0; 1]%Z 10%float).
  - reflexivity.
  - reflexivity.
  - constructor; [left; reflexivity | constructor; [right; reflexivity | constructor]].
Defined.

(** * Further properties *)

(** ** Shapes, labels and empty batches *)

(** X1: [perplexity_loss] checks the batch size first and the sentence
    length second; either mismatch raises [ValueError] with its own message,
    whatever the labels and probabilities are. *)
Theorem perplexity_loss_shape_mismatch :
  forall (F : Type) (N : Numeric F) (L : Libm F)
         (y_true : array2 Z) (y_pred : array3 F) (epsilon : F),
    (fst (shape2 y_true) <> fst (fst (shape3 y_pred)) ->
     perplexity_loss y_true y_pred epsilon
       = Raise (ValueError "Batch size of y_true and y_pred must be equal."))
    /\ (fst (shape2 y_true) = fst (fst (shape3 y_pred)) ->
        snd (shape2 y_true) <> snd (fst (shape3 y_pred)) ->
        perplexity_loss y_true y_pred epsilon
          = Raise (ValueError "Sentence length of y_true and y_pred must be equal.")).
Proof.
  intros F N L y_true y_pred epsilon. unfold perplexity_loss. split.
  - intros H. now rewrite (length_mismatch_eqb H).
  - intros Hb Hs. now rewrite (length_match_eqb Hb), (length_mismatch_eqb Hs).
Qed.

Lemma perplexity_loss_shape_mismatch_witness :
  perplexity_loss (np_array2 [[1; 4]]%Z) perplexity_y_pred_real 0.0000001%R
    = Raise (ValueError "Batch size of y_true and y_pred must be equal.")
  /\ perplexity_loss (np_array2 [[1; 4; 0]; [2; 3; 0]]%Z) perplexity_y_pred_real 0.0000001%R
    = Raise (ValueError "Sentence length of y_true and y_pred must be equal.").
Proof.
  split.
  - apply (perplexity_loss_shape_mismatch R_numeric R_libm
             (np_array2 [[1; 4]]%Z) perplexity_y_pred_real 0.0000001%R).
    simpl. lia.
  - apply (perplexity_loss_shape_mismatch R_numeric R_libm
             (np_array2 [[1; 4; 0]; [2; 3; 0]]%Z) perplexity_y_pred_real 0.0000001%R).
    + reflexivity.
    + simpl. lia.
Defined.

(** X2: a [y_true] without any label (an empty batch, or sentences of
    length 0) of matching shape makes [np.max] raise: the call ends in
    [ValueError], not in a NaN. *)
Theorem perplexity_loss_no_labels :
  forall (F : Type) (N : Numeric F) (L : Libm F)
         (y_true : array2 Z) (y_pred : array3 F) (epsilon : F),
    fst (shape2 y_true) = fst (fst (shape3 y_pred)) ->
    snd (shape2 y_true) = snd (fst (shape3 y_pred)) ->
    concat (rows2 y_true) = [] ->
    perplexity_loss y_true y_pred epsilon
      = Raise (ValueError
          "zero-size array to reduction operation maximum which has no identity").
Proof.
  intros F N L y_true y_pred epsilon Hb Hs Hempty. unfold perplexity_loss.
  now rewrite (length_match_eqb Hb), (length_match_eqb Hs), Hempty.
Qed.

Lemma perplexity_loss_no_labels_witness :
  perplexity_loss (Array2 (0, 2)%nat (@nil (list Z)))
                  (Array3 (0, 2, 5)%nat (@nil (list (list R)))) 0.0000001%R
    = Raise (ValueError
        "zero-size array to reduction operation maximum which has no identity").
Proof.
  apply (perplexity_loss_no_labels R_numeric R_libm
           (Array2 (0, 2)%nat (@nil (list Z)))
           (Array3 (0, 2, 5)%nat (@nil (list (list R)))) 0.0000001%R);
    reflexivity.
Defined.

(** ** Negative labels *)

Lemma eye_index_wrap {F : Type} {N : Numeric F} (n : nat) (word : Z) :
  (- Z.of_nat n <= word < Z.of_nat n)%Z ->
  eye_index (F := F) n (wrap_label n word) = eye_index n word.
Proof.
  intros H. unfold wrap_label.
  destruct (Z_lt_le_dec word 0) as [Hneg | Hpos].
  - assert (E : (word mod Z.of_nat n = word + Z.of_nat n)%Z).
    { symmetry. apply Z.mod_unique with (q := (-1)%Z); lia. }
    rewrite E. unfold eye_index.
    replace ((0 <=? word + Z.of_nat n)%Z && (word + Z.of_nat n <? Z.of_nat n)%Z) with true
      by (symmetry; apply andb_true_iff; split; [apply Z.leb_le | apply Z.ltb_lt]; lia).
    replace ((0 <=? word)%Z && (word <? Z.of_nat n)%Z) with false
      by (symmetry; apply andb_false_iff; left; apply Z.leb_gt; lia).
    replace ((- Z.of_nat n <=? word)%Z && (word <? 0)%Z) with true
      by (symmetry; apply andb_true_iff; split; [apply Z.leb_le | apply Z.ltb_lt]; lia).
    reflexivity.
  - now rewrite Z.mod_small by lia.
Qed.

Lemma map_result_map {A B C : Type} (f : B -> result C) (g : A -> B) (l : list A) :
  map_result f (map g l) = map_result (fun x => f (g x)) l.
Proof.
  induction l as [|x l IH]; simpl; [reflexivity|]. now rewrite IH.
Qed.

Lemma map_result_ext_in {A B : Type} (f g : A -> result B) (l : list A) :
  (forall x, In x l -> f x = g x) -> map_result f l = map_result g l.
Proof.
  induction l as [|x l IH]; simpl; intros H; [reflexivity|].
  rewrite (H x) by auto. rewrite IH by auto. reflexivity.
Qed.

Lemma np_max_below (a : list Z) (bound : Z) :
  Forall (fun x => (x < bound)%Z) a ->
  match np_max a with
  | Some largest => (bound <? largest)%Z = false
  | None => a = []
  end.
Proof.
  intros H. destruct (np_max a) as [largest|] eqn:E.
  - apply np_max_in in E. rewrite Forall_forall in H.
    specialize (H largest E). apply Z.ltb_ge. lia.
  - destruct a; [reflexivity | discriminate].
Qed.

(** X3: labels from [-V] to [-1] are accepted and count from the end of
    the vocabulary, as Python indices do: when every label lies in
    [[-V, V)], the loss is the loss of the labels taken modulo [V]. *)
Theorem perplexity_loss_negative_labels_wrap :
  forall (F : Type) (N : Numeric F) (L : Libm F)
         (y_true : array2 Z) (y_pred : array3 F) (epsilon : F),
    Forall (fun word => (- Z.of_nat (snd (shape3 y_pred)) <= word
                         < Z.of_nat (snd (shape3 y_pred)))%Z)
           (concat (rows2 y_true)) ->
    perplexity_loss y_true y_pred epsilon
      = perplexity_loss (wrap_labels (snd (shape3 y_pred)) y_true) y_pred epsilon.
Proof.
  intros F N L y_true y_pred epsilon Hrange.
  set (V := snd (shape3 y_pred)) in *.
  unfold perplexity_loss, wrap_labels. cbn [shape2 rows2]. fold V.
  destruct (negb (Nat.eqb (fst (shape2 y_true)) (fst (fst (shape3 y_pred)))));
    [reflexivity|].
  destruct (negb (Nat.eqb (snd (shape2 y_true)) (snd (fst (shape3 y_pred)))));
    [reflexivity|].
  rewrite <- concat_map.
  assert (Hwrapped : Forall (fun x => (x < Z.of_nat V)%Z)
                            (map (wrap_label V) (concat (rows2 y_true)))).
  { apply Forall_map. eapply Forall_impl; [|exact Hrange]. simpl.
    intros word Hw. unfold wrap_label. apply Z.mod_pos_bound. lia. }
  assert (Hplain : Forall (fun x => (x < Z.of_nat V)%Z) (concat (rows2 y_true))).
  { eapply Forall_impl; [|exact Hrange]. simpl. intros word Hw. lia. }
  apply np_max_below in Hwrapped, Hplain.
  assert (Hfilter :
    map_result (map_result (eye_index (F := F) V)) (map (map (wrap_label V)) (rows2 y_true))
    = map_result (map_result (eye_index V)) (rows2 y_true)).
  { rewrite map_result_map. apply map_result_ext_in. intros row Hrow.
    rewrite map_result_map. apply map_result_ext_in. intros word Hword.
    apply eye_index_wrap. rewrite Forall_forall in Hrange. apply Hrange.
    apply in_concat. eauto. }
  destruct (np_max (concat (rows2 y_true))) as [largest|] eqn:E1;
    destruct (np_max (map (wrap_label V) (concat (rows2 y_true)))) as [largest'|] eqn:E2.
  - now rewrite Hwrapped, Hplain, Hfilter.
  - apply map_eq_nil in Hwrapped. rewrite Hwrapped in E1. discriminate.
  - rewrite Hplain in E2. discriminate.
  - reflexivity.
Qed.

Lemma perplexity_loss_negative_labels_wrap_witness :
  perplexity_loss (np_array2 [[1; -1]; [2; 3]]%Z) perplexity_y_pred_real 0.0000001%R
  = perplexity_loss (wrap_labels 5 (np_array2 [[1; -1]; [2; 3]]%Z))
      perplexity_y_pred_real 0.0000001%R.
Proof.
  apply (perplexity_loss_negative_labels_wrap R_numeric R_libm
           (np_array2 [[1; -1]; [2; 3]]%Z) perplexity_y_pred_real 0.0000001%R).
  simpl. repeat (constructor; [lia|]). constructor.
Defined.

(** ** Shape checks of [contrastive_loss] *)

(** X4: [contrastive_loss] compares the batch size of [inputs] with the
    length of [target] first and requires the second axis to be 2 next;
    either failure raises [ValueError] before any distance is computed. *)
Theorem contrastive_loss_shape_mismatch :
  forall (F : Type) (N : Numeric F) (inputs : array3 F) (target : list Z) (m : F),
    (fst (fst (shape3 inputs)) <> length target ->
     contrastive_loss inputs target m
       = Raise (ValueError "batch size of inputs and target parameter must be equal."))
    /\ (fst (fst (shape3 inputs)) = length target ->
        snd (fst (shape3 inputs)) <> 2%nat ->
        contrastive_loss inputs target m
          = Raise (ValueError "inputs shape must be equal to (batch_size, 2, n)")).
Proof.
  intros F N inputs target m. unfold contrastive_loss. split.
  - intros H. now rewrite (length_mismatch_eqb H).
  - intros Hb Hp. now rewrite (length_match_eqb Hb), (length_mismatch_eqb Hp).
Qed.

Lemma contrastive_loss_shape_mismatch_witness :
  contrastive_loss contrastive_inputs [0; 1; 1]%Z 10%R
    = Raise (ValueError "batch size of inputs and target parameter must be equal.")
  /\ contrastive_loss
       (np_array3 [[[0.1; 0.2]; [0.3; 0.4]; [0.5; 0.6]];
                   [[0.7; 0.8]; [0.9; 1]; [1.1; 1.2]]]%R) [0; 1]%Z 10%R
    = Raise (ValueError "inputs shape must be equal to (batch_size, 2, n)").
Proof.
  split.
  - apply (contrastive_loss_shape_mismatch R_numeric contrastive_inputs [0; 1; 1]%Z 10%R).
    simpl. lia.
  - apply (contrastive_loss_shape_mismatch R_numeric
             (np_array3 [[[0.1; 0.2]; [0.3; 0.4]; [0.5; 0.6]];
                         [[0.7; 0.8]; [0.9; 1]; [1.1; 1.2]]]%R) [0; 1]%Z 10%R).
    + reflexivity.
    + simpl. lia.
Defined.

(** ** Relations between the losses *)

(** X5: the mean squared logarithmic error is the mean squared error of
    the arrays under [log1p], the length check and its message included. *)
Theorem mean_squared_logarithmic_error_is_mse_of_log1p :
  forall (F : Type) (N : Numeric F) (L : Libm F) (y_true y_pred : list F),
    mean_squared_logarithmic_error y_true y_pred
    = mean_squared_error (map nlog1p y_true) (map nlog1p y_pred).
Proof.
  intros F N L y_true y_pred.
  unfold mean_squared_logarithmic_error, mean_squared_error.
  now rewrite !length_map.
Qed.

(** ** Empty arrays in binary64 *)

(** X6: on arrays without elements the mean-based losses do not raise:
    each returns the mean of an empty array, NaN.  [contrastive_loss] on an
    empty batch returns 0, the sum of no distances. *)
Theorem losses_of_empty_arrays :
  forall (L : Libm float) (gamma alpha epsilon delta m : float),
    binary_cross_entropy [] [] epsilon = Ok PrimFloat.nan
    /\ binary_focal_cross_entropy [] [] gamma alpha epsilon = Ok PrimFloat.nan
    /\ hinge_loss (@nil float) [] = Ok PrimFloat.nan
    /\ huber_loss [] [] delta = Ok PrimFloat.nan
    /\ mean_squared_logarithmic_error (@nil float) [] = Ok PrimFloat.nan
    /\ mean_absolute_percentage_error [] [] epsilon = Ok PrimFloat.nan
    /\ contrastive_loss (Array3 (0, 2, 5)%nat []) [] m = Ok 0%float.
Proof.
  intros L gamma alpha epsilon delta m. repeat split.
Qed.

(** ** Percentage error *)

Lemma no_zero_to_replace {F : Type} {N : Numeric F} (epsilon : F) (y_true : list F) :
  Forall (fun y => num_eqb y zero = false) y_true ->
  map (fun y => if num_eqb y zero then epsilon else y) y_true = y_true.
Proof.
  intros H. rewrite <- (map_id y_true) at 2. apply map_ext_in.
  intros y Hy. rewrite Forall_forall in H. now rewrite (H y Hy).
Qed.

(** X12: [epsilon] only stands in for the zeros of [y_true].  When no entry
    of [y_true] compares equal to 0, the percentage error is the same for
    every [epsilon]: for arrays of equal length it is the mean of
    [|(y_true - y_pred) / y_true|]. *)
Theorem mean_absolute_percentage_error_ignores_epsilon :
  forall (F : Type) (N : Numeric F) (y_true y_pred : list F) (epsilon epsilon' : F),
    Forall (fun y => num_eqb y zero = false) y_true ->
    mean_absolute_percentage_error y_true y_pred epsilon
      = mean_absolute_percentage_error y_true y_pred epsilon'
    /\ (length y_true = length y_pred ->
        mean_absolute_percentage_error y_true y_pred epsilon
        = Ok (np_mean (zip_with (fun y p => nabs ((y - p) / y))%num y_true y_pred))).
Proof.
  intros F N y_true y_pred epsilon epsilon' Hnz.
  unfold mean_absolute_percentage_error.
  rewrite !(no_zero_to_replace _ Hnz). split; [reflexivity|].
  intros Hlen. rewrite (length_match_eqb Hlen). do 2 f_equal.
  clear Hnz Hlen. revert y_pred.
  induction y_true as [|y ys IH]; intros [|p ps]; simpl; try reflexivity.
  f_equal. apply IH.
Qed.

Lemma mean_absolute_percentage_error_ignores_epsilon_witness :
  mean_absolute_percentage_error [10; 20; 30; 40]%float [12; 18; 33; 45]%float 1e-15%float
    = mean_absolute_percentage_error [10; 20; 30; 40]%float [12; 18; 33; 45]%float 0.1%float
  /\ mean_absolute_percentage_error [10; 20; 30; 40]%float [12; 18; 33; 45]%float 1e-15%float
     = Ok (np_mean (zip_with (fun y p => nabs ((y - p) / y))%num
                             [10; 20; 30; 40]%float [12; 18; 33; 45]%float)).
Proof.
  destruct (@mean_absolute_percentage_error_ignores_epsilon float float_numeric
              [10; 20; 30; 40]%float [12; 18; 33; 45]%float 1e-15%float 0.1%float)
    as [H1 H2].
  - repeat constructor.
  - split; [exact H1 | apply H2; reflexivity].
Defined.

(** ** Sums and means of real lists *)

Section RealProperties.
Local Open Scope R_scope.

Lemma real_sum_nonneg (l : list R) : Forall (fun x => 0 <= x) l -> 0 <= real_sum l.
Proof.
  induction 1 as [|x l Hx _ IH]; simpl; lra.
Qed.

Lemma count_positive {A : Type} (l : list A) : l <> [] -> 0 < INR (length l).
Proof.
  intros H. destruct l; [contradiction|]. apply lt_0_INR. simpl. lia.
Qed.


Lemma real_mean_lower (c : R) (l : list R) :
  l <> [] -> Forall (fun x => c <= x) l -> c <= real_mean l.
Proof.
  intros Hne H. unfold real_mean.
  pose proof (count_positive Hne) as Hn.
  assert (Hsum : c * INR (length l) <= real_sum l).
  { clear Hne Hn. induction H as [|x l Hx _ IH]; [simpl; lra|].
    change (length (x :: l)) with (S (length l)). rewrite S_INR. simpl. lra. }
  apply Rmult_le_reg_r with (r := INR (length l)); [assumption|].
  unfold Rdiv. rewrite Rmult_assoc, Rinv_l by lra. lra.
Qed.

Lemma inv_count_nonneg (n : nat) : 0 <= / INR n.
Proof.
  destruct n.
  - simpl. rewrite Rinv_0. lra.
  - left. apply Rinv_0_lt_compat, lt_0_INR. lia.
Qed.



Lemma zip_with_swap {A B C : Type} (f : A -> B -> C) (xs : list A) (ys : list B) :
  zip_with f xs ys = zip_with (fun y x => f x y) ys xs.
Proof.
  revert ys. induction xs as [|x xs IH]; intros [|y ys]; simpl; f_equal; auto.
Qed.

Lemma zip_with_Forall {A B C : Type} (P : C -> Prop) (f : A -> B -> C)
    (xs : list A) (ys : list B) :
  (forall x y, In x xs -> In y ys -> P (f x y)) -> Forall P (zip_with f xs ys).
Proof.
  revert ys. induction xs as [|x xs IH]; intros [|y ys] H; simpl; constructor.
  - apply H; simpl; auto.
  - apply IH. intros; apply H; simpl; auto.
Qed.

(** ** Squared and absolute error *)

(** X7: squared and absolute error do not depend on which array is called
    the truth: swapping the arguments gives the same result, the length
    error included. *)
Theorem errors_are_symmetric :
  forall y_true y_pred : list R,
    mean_squared_error y_true y_pred = mean_squared_error y_pred y_true
    /\ mean_absolute_error y_true y_pred = mean_absolute_error y_pred y_true.
Proof.
  intros y_true y_pred. unfold mean_squared_error, mean_absolute_error.
  rewrite (Nat.eqb_sym (length y_true) (length y_pred)).
  destruct (negb (Nat.eqb (length y_pred) (length y_true))); [split; reflexivity|].
  rewrite !map_zip_with, (zip_with_swap _ y_pred y_true),
    (zip_with_swap (fun x y => nabs (x - y)%num) y_pred y_true).
  split; do 2 f_equal; apply zip_with_ext; intros y p.
  - unfold square. simpl. ring.
  - simpl. apply Rabs_minus_sym.
Qed.

(** ** Hinge loss *)





Lemma zip_with_ext_in {A B C : Type} (f g : A -> B -> C) (xs : list A) (ys : list B) :
  (forall x y, In x xs -> In y ys -> f x y = g x y) ->
  zip_with f xs ys = zip_with g xs ys.
Proof.
  revert ys. induction xs as [|x xs IH]; intros [|y ys] H; simpl; try reflexivity.
  f_equal; [apply H; simpl; auto | apply IH; intros; apply H; simpl; auto].
Qed.

(** ** Binary cross-entropy *)



Lemma ln_monotone (x y : R) : 0 < x -> x <= y -> ln x <= ln y.
Proof.
  intros Hx [Hlt | ->]; [left; now apply ln_increasing | lra].
Qed.

Lemma exp_monotone (x y : R) : x <= y -> exp x <= exp y.
Proof.
  intros [Hlt | ->]; [left; now apply exp_increasing | lra].
Qed.

Lemma ln_nonpositive (x : R) : 0 < x <= 1 -> ln x <= 0.
Proof.
  intros [H0 H1]. rewrite <- ln_1. now apply ln_monotone.
Qed.





(** ** Contrastive loss *)

Lemma real_sum_map_le {A : Type} (f g : A -> R) (l : list A) :
  (forall x, f x <= g x) -> real_sum (map f l) <= real_sum (map g l).
Proof.
  intros H. induction l as [|x l IH]; simpl; [lra|]. specialize (H x). lra.
Qed.

Lemma pair_distance_nonneg (pair : list (list R)) : 0 <= pair_distance pair.
Proof.
  destruct pair as [|u [|v [|w rest]]]; simpl; try lra.
  unfold euclidean_distance. apply sqrt_pos.
Qed.

(** X17: for valid inputs the contrastive loss is never negative, and a
    larger margin never gives a smaller loss. *)
Theorem contrastive_loss_monotone_in_margin :
  forall (inputs : array3 R) (target : list Z) (m m' : R),
    wf_array3 inputs = true ->
    fst (fst (shape3 inputs)) = length target ->
    snd (fst (shape3 inputs)) = 2%nat ->
    Forall (fun t => t = 0%Z \/ t = 1%Z) target ->
    m <= m' ->
    exists v v',
      contrastive_loss inputs target m = Ok v
      /\ contrastive_loss inputs target m' = Ok v'
      /\ 0 <= v
      /\ v <= v'.
Proof.
  intros inputs target m m' Hwf Hbatch Hpair Htarget Hm.
  rewrite (@contrastive_loss_real inputs target m Hwf Hbatch Hpair Htarget),
    (@contrastive_loss_real inputs target m' Hwf Hbatch Hpair Htarget).
  do 2 eexists. split; [reflexivity|]. split; [reflexivity|].
  unfold contrastive_spec. split.
  - apply Rplus_le_le_0_compat; apply real_sum_nonneg, Forall_map, Forall_forall;
      intros pt _.
    + apply pair_distance_nonneg.
    + apply Rmax_l.
  - apply Rplus_le_compat_l, real_sum_map_le. intros pt.
    apply Rle_max_compat_l. lra.
Qed.

Lemma contrastive_loss_monotone_in_margin_witness :
  exists v v',
    contrastive_loss contrastive_inputs [0; 1]%Z 1 = Ok v
    /\ contrastive_loss contrastive_inputs [0; 1]%Z 10 = Ok v'
    /\ 0 <= v
    /\ v <= v'.
Proof.
  apply (@contrastive_loss_monotone_in_margin contrastive_inputs [0; 1]%Z 1 10).
  - reflexivity.
  - reflexivity.
  - reflexivity.
  - constructor; [left; reflexivity | constructor; [right; reflexivity | constructor]].
  - lra.
Defined.

(** ** Perplexity *)

Lemma real_mean_at_most_zero (l : list R) :
  Forall (fun x => x <= 0) l -> real_mean l <= 0.
Proof.
  intros H. unfold real_mean, Rdiv.
  assert (Hsum : real_sum l <= 0).
  { induction H as [|x l Hx _ IH]; simpl; lra. }
  pose proof (inv_count_nonneg (length l)) as Hinv.
  nra.
Qed.

Lemma map_result_ok {A B : Type} (f : A -> result B) (g : A -> B) (l : list A) :
  (forall x, In x l -> f x = Ok (g x)) -> map_result f l = Ok (map g l).
Proof.
  induction l as [|x l IH]; simpl; intros H; [reflexivity|].
  rewrite (H x) by auto. simpl. rewrite IH by auto. reflexivity.
Qed.

Lemma eye_index_in_range {F : Type} {N : Numeric F} (n : nat) (word : Z) :
  (0 <= word < Z.of_nat n)%Z ->
  eye_index (F := F) n word = Ok (eye_row n (Z.to_nat word)).
Proof.
  intros [H0 H1]. unfold eye_index.
  replace ((0 <=? word)%Z && (word <? Z.of_nat n)%Z) with true; [reflexivity|].
  symmetry. apply andb_true_iff. split; [now apply Z.leb_le | now apply Z.ltb_lt].
Qed.

(** Multiplying by a row of the identity and summing picks one entry. *)
Lemma one_hot_selects (k : nat) (n : nat) :
  forall (s : nat) (p : list R),
    real_sum (zip_with Rmult p
                (map (fun j => if Nat.eqb j k then 1 else 0) (seq s n)))
    = if (s <=? k)%nat && (k <? s + n)%nat then nth (k - s) p 0 else 0.
Proof.
  induction n as [|n IH]; intros s p.
  - replace ((s <=? k)%nat && (k <? s + 0)%nat) with false.
    + destruct p; reflexivity.
    + symmetry. apply andb_false_iff.
      destruct (Nat.leb_spec s k); [right; apply Nat.ltb_ge; lia | now left].
  - destruct p as [|x p].
    + simpl. destruct ((s <=? k)%nat && (k <? s + S n)%nat); [|reflexivity].
      now destruct (k - s)%nat.
    + cbn [seq map zip_with real_sum fold_right].
      change (fold_right Rplus 0 ?l) with (real_sum l).
      rewrite IH.
      destruct (Nat.eqb_spec s k) as [-> | Hneq].
      * replace ((S k <=? k)%nat && (k <? S k + n)%nat) with false
          by (symmetry; apply andb_false_iff; left; apply Nat.leb_gt; lia).
        replace ((k <=? k)%nat && (k <? k + S n)%nat) with true
          by (symmetry; apply andb_true_iff; split;
              [apply Nat.leb_le | apply Nat.ltb_lt]; lia).
        rewrite Nat.sub_diag. simpl. lra.
      * destruct (Nat.leb_spec (S s) k) as [Hle | Hgt].
        -- replace (s <=? k)%nat with true by (symmetry; apply Nat.leb_le; lia).
           replace (k <? s + S n)%nat with (k <? S s + n)%nat
             by (f_equal; lia).
           simpl andb. destruct (k <? _)%nat; [|lra].
           replace (k - s)%nat with (S (k - S s)) by lia. simpl. lra.
        -- replace (s <=? k)%nat with false by (symmetry; apply Nat.leb_gt; lia).
           simpl. lra.
Qed.

Lemma eye_row_selects (p : list R) (n k : nat) :
  (k < n)%nat -> np_sum (zip_with nmul p (eye_row n k)) = nth k p 0.
Proof.
  intros Hk. rewrite np_sum_real. unfold eye_row, one, zero. simpl.
  rewrite (one_hot_selects k n 0 p).
  replace ((0 <=? k)%nat && (k <? 0 + n)%nat) with true
    by (symmetry; apply andb_true_iff; split; [apply Nat.leb_le | apply Nat.ltb_lt]; lia).
  now rewrite Nat.sub_0_r.
Qed.

Lemma perplexity_loss_real (y_true : array2 Z) (y_pred : array3 R) (epsilon : R) :
  fst (shape2 y_true) = fst (fst (shape3 y_pred)) ->
  snd (shape2 y_true) = snd (fst (shape3 y_pred)) ->
  concat (rows2 y_true) <> [] ->
  Forall (fun word => (0 <= word < Z.of_nat (snd (shape3 y_pred)))%Z)
         (concat (rows2 y_true)) ->
  perplexity_loss y_true y_pred epsilon
  = Ok (perplexity_spec (rows2 y_true) (planes3 y_pred) epsilon).
Proof.
  intros Hbatch Hlen Hne Hrange. unfold perplexity_loss.
  set (V := snd (shape3 y_pred)) in *.
  rewrite (length_match_eqb Hbatch), (length_match_eqb Hlen).
  assert (Hbelow : Forall (fun x => (x < Z.of_nat V + 1)%Z) (concat (rows2 y_true))).
  { eapply Forall_impl; [|exact Hrange]. simpl. intros; lia. }
  destruct (np_max (concat (rows2 y_true))) as [largest|] eqn:Hmax.
  2:{ destruct (concat (rows2 y_true)); [contradiction | discriminate]. }
  apply np_max_in in Hmax. rewrite Forall_forall in Hrange.
  pose proof (Hrange largest Hmax) as Hlargest.
  replace (Z.of_nat V <? largest)%Z with false by (symmetry; apply Z.ltb_ge; lia).
  rewrite (@map_result_ok _ _ (map_result (eye_index (F := R) V))
             (map (fun word => eye_row V (Z.to_nat word))) (rows2 y_true)).
  2:{ intros sentence Hs. apply map_result_ok. intros word Hw.
      apply eye_index_in_range, Hrange, in_concat. eauto. }
  cbn [bind_result]. f_equal. unfold perplexity_spec.
  rewrite np_mean_real. f_equal.
  rewrite zip_with_map_r, !map_zip_with.
  apply zip_with_ext_in. intros probs sentence _ Hs.
  unfold sentence_perplexity.
  change (@nexp R R_libm) with exp. change (@nneg R R_numeric) with Ropp.
  do 2 f_equal. rewrite np_mean_real. f_equal.
  rewrite zip_with_map_r, !map_zip_with.
  apply zip_with_ext_in. intros p word _ Hw.
  change (@nlog R R_libm) with ln. change (@one R R_numeric) with 1.
  do 2 f_equal. apply eye_row_selects.
  assert (Hin : In word (concat (rows2 y_true))) by (apply in_concat; eauto).
  specialize (Hrange word Hin). fold V in Hrange. lia.
Qed.



Lemma sentence_perplexity_at_least_one
    (epsilon : R) (probs : list (list R)) (sentence : list Z) :
  0 < epsilon <= 1 ->
  1 <= sentence_perplexity epsilon probs sentence.
Proof.
  intros [Hpos Hone]. unfold sentence_perplexity.
  assert (Hmean : real_mean (zip_with
                     (fun p word => ln (clip epsilon 1 (nth (Z.to_nat word) p 0)))
                     probs sentence) <= 0).
  { apply real_mean_at_most_zero. apply zip_with_Forall. intros p word _ _.
    pose proof (@clip_within epsilon 1 (nth (Z.to_nat word) p 0) Hone) as [Hlo Hhi].
    apply ln_nonpositive; lra. }
  apply Rle_trans with (r2 := exp 0); [rewrite exp_0; lra|].
  apply exp_monotone. lra.
Qed.

(** X19: for well-formed arrays of matching shape, labels from 0 to
    [V - 1] and [0 < epsilon <= 1], the perplexity is at least 1, the value
    it takes when every true word is predicted with probability 1. *)
Theorem perplexity_loss_at_least_one :
  forall (y_true : array2 Z) (y_pred : array3 R) (epsilon : R),
    wf_array2 y_true = true ->
    wf_array3 y_pred = true ->
    fst (shape2 y_true) = fst (fst (shape3 y_pred)) ->
    snd (shape2 y_true) = snd (fst (shape3 y_pred)) ->
    concat (rows2 y_true) <> [] ->
    Forall (fun word => (0 <= word < Z.of_nat (snd (shape3 y_pred)))%Z)
           (concat (rows2 y_true)) ->
    0 < epsilon <= 1 ->
    exists v, perplexity_loss y_true y_pred epsilon = Ok v /\ 1 <= v.
Proof.
  intros y_true y_pred epsilon Hwf2 Hwf3 Hbatch Hlen Hne Hrange Heps.
  rewrite (perplexity_loss_real y_true y_pred epsilon Hbatch Hlen Hne Hrange).
  eexists. split; [reflexivity|]. unfold perplexity_spec.
  assert (Hrows : rows2 y_true <> []).
  { intros E. rewrite E in Hne. now apply Hne. }
  assert (Hcount : length (planes3 y_pred) = length (rows2 y_true)).
  { unfold wf_array2 in Hwf2. unfold wf_array3 in Hwf3.
    apply andb_true_iff in Hwf2, Hwf3. destruct Hwf2 as [H2 _], Hwf3 as [H3 _].
    apply Nat.eqb_eq in H2, H3. congruence. }
  assert (Hnonempty : zip_with (sentence_perplexity epsilon) (planes3 y_pred) (rows2 y_true)
                      <> []).
  { intros E. apply (f_equal (@length R)) in E.
    rewrite zip_with_length, Hcount, Nat.min_id in E.
    destruct (rows2 y_true); [contradiction | discriminate]. }
  apply real_mean_lower; [assumption|]. apply zip_with_Forall.
  intros probs sentence _ _. now apply sentence_perplexity_at_least_one.
Qed.

Lemma perplexity_loss_at_least_one_witness :
  exists v,
    perplexity_loss (np_array2 [[1; 4]; [2; 3]]%Z) perplexity_y_pred_real 0.0000001 = Ok v
    /\ 1 <= v.
Proof.
  apply (@perplexity_loss_at_least_one (np_array2 [[1; 4]; [2; 3]]%Z)
           perplexity_y_pred_real 0.0000001).
  - reflexivity.
  - reflexivity.
  - reflexivity.
  - reflexivity.
  - discriminate.
  - simpl. repeat (constructor; [lia|]). constructor.
  - lra.
Defined.

End RealProperties.
